(** * django-carton: the session cart of [carton/cart.py]

    A shallow embedding of [CartItem] and [Cart], and the properties of
    the cart operations.  Python objects are modelled as follows.

    - A product is a Django model instance.  The cart reads two things
      from it: the dotted import path of its class
      ([get_product_model_path]) and its primary key [pk].  Django's
      [Model.__eq__] compares exactly the class and the primary key, so
      equality of the record below is Python's [==] on products.  The
      primary key is an integer, as in [carton/tests/models.py]
      ([custom_id = models.IntegerField(primary_key=True)]).
    - The inner dictionaries of [_items_dict] are indexed by Python
      values: [add] and its siblings index with [product.pk] (an [int]),
      [__init__] indexes with [str(product.pk)] (a [str]).  The type
      [key] keeps the two apart, as Python's [dict] does.
    - [_items_dict] is the [defaultdict(dict)] of [__init__] until
      [clear] rebinds it to a plain [dict]; the field [is_defaultdict]
      records which of the two it is.
    - [decimal.Decimal] belongs to Python's library; it is an interface
      ([DecimalModule]) with the one law the cart relies on.
    - A method is a computation over the cart object that either returns
      or raises, and leaves the object in the state reached so far. *)

From Stdlib Require Import ZArith String Ascii DecimalString DecimalZ.
From stdpp Require Import base option list gmap strings fin_maps.

Open Scope Z_scope.

(** ** Python values *)

(** [str(n)] for an [int]. *)
Definition str (n : Z) : string := NilZero.string_of_int (Z.to_int n).

(** A character of a [string] is the code point of that number.  The
    white space that [int] skips, below code point 256: tab to carriage
    return, the space, next line (133) and the no-break space (160). *)
Definition isspace (a : ascii) : bool :=
  let n := N_of_ascii a in
  ((9 <=? n) && (n <=? 13) || (n =? 32) || (n =? 133) || (n =? 160))%N.

Definition isdigit (a : ascii) : bool :=
  let n := N_of_ascii a in ((48 <=? n) && (n <=? 57))%N.

Fixpoint lstrip (s : string) : string :=
  match s with
  | String a s' => if isspace a then lstrip s' else s
  | EmptyString => s
  end.

(** The digits of a literal without its underscores; [after_digit] tells
    whether the character before was a digit.  An underscore stands
    between two digits, and only white space follows the last digit. *)
Fixpoint digits_of (after_digit : bool) (s : string) : option string :=
  match s with
  | EmptyString => if after_digit then Some EmptyString else None
  | String a s' =>
      if isdigit a then String a <$> digits_of true s'
      else if Ascii.eqb a "_" then
        if after_digit then digits_of false s' else None
      else
        if after_digit then
          match lstrip s with EmptyString => Some EmptyString | _ => None end
        else None
  end.

Definition literal (s : string) : option Decimal.uint :=
  digits_of false s ≫= NilEmpty.uint_of_string.

(** [int(s)] for a [str], as the [IntegerField] of the primary key coerces
    the values of a [pk__in] lookup; [None] stands for [ValueError].
    Python 3 reads white space, an optional sign, and digits that single
    underscores may separate, then white space to the end.  (Python
    before 3.6 rejects the underscores, and a bound on the number of
    digits, [sys.set_int_max_str_digits], rejects long literals: both
    raise [ValueError] for more strings, never for fewer.) *)
Definition int (s : string) : option Z :=
  match lstrip s with
  | String a s' =>
      if Ascii.eqb a "-" then (λ d, Z.of_int (Decimal.Neg d)) <$> literal s'
      else if Ascii.eqb a "+" then (λ d, Z.of_int (Decimal.Pos d)) <$> literal s'
      else (λ d, Z.of_int (Decimal.Pos d)) <$> literal (String a s')
  | EmptyString => None
  end.

(** The exceptions the cart can meet. *)
Inductive exn : Type :=
  | ValueError (msg : string)
  | KeyError
  | InvalidOperation
  | Overflow
  | ImportError.

Inductive result (A : Type) : Type :=
  | Ok (a : A)
  | Raise (e : exn).
Arguments Ok {A} a.
Arguments Raise {A} e.

Definition is_Ok {A} (r : result A) : bool :=
  match r with Ok _ => true | Raise _ => false end.

(** The interface of [decimal.Decimal] used by [cart.py]. *)
Class DecimalModule : Type := {
  Decimal : Type;
  (** [Decimal(s)]; [None] is [decimal.InvalidOperation]. *)
  Decimal_of_str : string → option Decimal;
  (** [str(d)] *)
  str_of_Decimal : Decimal → string;
  (** the conversion of an [int] operand in [d * n] and [n + d], which is
      exact *)
  Decimal_of_int : Z → Decimal;
  (** [a + b] and [a * b] in the current context: the result, rounded to
      the precision of the context, or the exception of a signal that the
      context traps ([InvalidOperation] for a signalling NaN or for
      infinity times zero, [Overflow] for an exponent out of range) *)
  Decimal_add : Decimal → Decimal → result Decimal;
  Decimal_mul : Decimal → Decimal → result Decimal;
  (** the string of a decimal reads back as that decimal *)
  Decimal_of_str_of_Decimal : ∀ d, Decimal_of_str (str_of_Decimal d) = Some d
}.

(** ** Products, cart items and their serialized form *)

Record Product : Type := {
  (** [model.__module__ + '.' + type(model).__name__] *)
  p_model : string;
  pk : Z
}.

Global Instance Product_eq_dec : EqDecision Product.
Proof. solve_decision. Defined.

(** Keys of the inner dictionaries of [_items_dict]: [1] and ['1'] are
    different keys of a Python [dict]. *)
Inductive key : Type :=
  | KInt (n : Z)
  | KStr (s : string).

Global Instance key_eq_dec : EqDecision key.
Proof. solve_decision. Defined.

Global Instance key_countable : Countable key.
Proof.
  refine (inj_countable'
    (λ k, match k with KInt n => inl n | KStr s => inr s end)
    (λ x, match x with inl n => KInt n | inr s => KStr s end) _).
  by intros [].
Defined.

(** The record [CartItem.to_dict] returns. *)
Record ItemDict : Type := {
  dict_product_pk : Z;
  dict_quantity : Z;
  dict_price : string
}.

(** The nested dictionary kept in the session. *)
Abbreviation CartRep := (gmap string (gmap string ItemDict)).

Record Session : Type := {
  s_data : gmap string CartRep;
  s_modified : bool
}.

(** [Model.objects.all()] for the class at a dotted path, the optional
    [CART_PRODUCT_LOOKUP] of the Django settings, and the default session
    key of [carton.settings]. *)
Record Environment : Type := {
  CART_SESSION_KEY : string;
  CART_PRODUCT_LOOKUP : option (Product → bool);
  objects_all : string → option (list Product)
}.

Section Carton.
Context `{DM : DecimalModule}.

(** The [price] argument of [CartItem] and of [Cart.add]: the code reads
    it through [str(price)] only. *)
Inductive pyval : Type :=
  | PyInt (n : Z)
  | PyStr (s : string)
  | PyDecimal (d : Decimal).

Definition py_str (v : pyval) : string :=
  match v with
  | PyInt n => str n
  | PyStr s => s
  | PyDecimal d => str_of_Decimal d
  end.

(** *** class CartItem *)

Record CartItem : Type := {
  product : Product;
  quantity : Z;
  price : Decimal
}.

(** [CartItem.__init__]; the quantity is an [int] already at both call
    sites, so [int(quantity)] is the identity. *)
Definition CartItem_init (product : Product) (quantity : Z) (price : pyval)
  : result CartItem :=
  match Decimal_of_str (py_str price) with
  | Some d => Ok {| product := product; quantity := quantity; price := d |}
  | None => Raise InvalidOperation
  end.

Definition to_dict (self : CartItem) : ItemDict :=
  {| dict_product_pk := pk (product self);
     dict_quantity := quantity self;
     dict_price := str_of_Decimal (price self) |}.

(** [price * quantity], a [Decimal] times an [int]: the product, or the
    exception of the multiplication. *)
Definition subtotal (self : CartItem) : result Decimal :=
  Decimal_mul (price self) (Decimal_of_int (quantity self)).

(** *** class Cart *)

Record Cart : Type := {
  _items_dict : gmap string (gmap key CartItem);
  (** [_items_dict] is a [defaultdict(dict)] after [__init__] and a plain
      [dict] after [clear] *)
  is_defaultdict : bool;
  session : Session;
  session_key : string
}.

(** Methods: run on the object, return or raise, leave the object. *)
Definition M (A : Type) : Type := Cart → result A * Cart.

Definition ret {A} (a : A) : M A := λ self, (Ok a, self).
Definition raise {A} (e : exn) : M A := λ self, (Raise e, self).
Definition bind {A B} (m : M A) (k : A → M B) : M B :=
  λ self, match m self with
          | (Ok a, self') => k a self'
          | (Raise e, self') => (Raise e, self')
          end.
Definition get {A} (f : Cart → A) : M A := λ self, (Ok (f self), self).
Definition modify (f : Cart → Cart) : M unit := λ self, (Ok tt, f self).
Definition when (b : bool) (m : M unit) : M unit := if b then m else ret tt.

Notation "'do' x <- m ; k" := (bind m (λ x, k))
  (at level 20, x name, m at level 100, k at level 200).
Notation "m ;; k" := (bind m (λ _, k))
  (at level 100, k at level 200, right associativity).

Definition set_items_dict (d : gmap string (gmap key CartItem)) (self : Cart) : Cart :=
  {| _items_dict := d; is_defaultdict := is_defaultdict self;
     session := session self; session_key := session_key self |}.

(** [self._items_dict[model]]: a [defaultdict(dict)] inserts and returns an
    empty dictionary for a missing key, a plain [dict] raises. *)
Definition items_dict_getitem (model : string) : M (gmap key CartItem) :=
  λ self,
    match _items_dict self !! model with
    | Some inner => (Ok inner, self)
    | None =>
        if is_defaultdict self
        then (Ok ∅, set_items_dict (<[model := ∅]> (_items_dict self)) self)
        else (Raise KeyError, self)
    end.

(** [self._items_dict[model][k]] *)
Definition item_getitem (model : string) (k : key) : M CartItem :=
  do inner <- items_dict_getitem model;
  match inner !! k with
  | Some item => ret item
  | None => raise KeyError
  end.

(** [self._items_dict[model][k] = item]; the inner dictionary is updated
    in place. *)
Definition item_setitem (model : string) (k : key) (item : CartItem) : M unit :=
  do inner <- items_dict_getitem model;
  modify (λ self, set_items_dict (<[model := <[k := item]> inner]> (_items_dict self)) self).

(** [del self._items_dict[model][k]] *)
Definition item_delitem (model : string) (k : key) : M unit :=
  do inner <- items_dict_getitem model;
  match inner !! k with
  | Some _ =>
      modify (λ self, set_items_dict (<[model := delete k inner]> (_items_dict self)) self)
  | None => raise KeyError
  end.

(** [item.quantity = q] for the item object held at
    [self._items_dict[model][k]]: the object is updated in place, so the
    dictionary shows the new quantity. *)
Definition item_setattr_quantity (model : string) (k : key) (q : Z) : M unit :=
  modify (λ self,
    set_items_dict
      (alter (alter (λ item, {| product := product item; quantity := q;
                                price := price item |}) k) model (_items_dict self))
      self).

(** The item stored at [self._items_dict[model][k]], if any. *)
Definition item_at (self : Cart) (model : string) (k : key) : option CartItem :=
  _items_dict self !! model ≫= (.!! k).

Definition get_product_model_path (model : Product) : string := p_model model.

(** [[i for _ in self._items_dict.values() for i in _.values()]]; the
    list follows the order of the finite map, Python's follows the order of
    its dictionaries. *)
Definition items (self : Cart) : list CartItem :=
  (map_to_list (_items_dict self)).*2 ≫= λ inner, (map_to_list inner).*2.

Definition products (self : Cart) : list Product := product <$> items self.

(** [product in self.products] *)
Definition contains (self : Cart) (product : Product) : bool :=
  bool_decide (product ∈ products self).

(** One turn of the loop of [cart_serializable]:
    [cart_representation[path][str(item.product.pk)] = item.to_dict()] on a
    [defaultdict(dict)]. *)
Definition serialize_item (cart_representation : CartRep) (item : CartItem) : CartRep :=
  let model := get_product_model_path (product item) in
  <[model := <[str (pk (product item)) := to_dict item]>
               (default ∅ (cart_representation !! model))]> cart_representation.

Definition cart_serializable (self : Cart) : CartRep :=
  foldl serialize_item ∅ (items self).

Definition items_serializable (self : Cart) : list (string * gmap string ItemDict) :=
  map_to_list (cart_serializable self).

Definition update_session : M unit :=
  modify (λ self,
    {| _items_dict := _items_dict self; is_defaultdict := is_defaultdict self;
       session := {| s_data := <[session_key self := cart_serializable self]>
                                 (s_data (session self));
                     s_modified := true |};
       session_key := session_key self |}).

Definition add (p : Product) (price_ : option pyval) (q : Z) : M unit :=
  let model := get_product_model_path p in
  if bool_decide (q < 1)
  then raise (ValueError "Quantity must be at least 1 when adding to cart")
  else
    do present <- get (λ self, contains self p);
    (if present : bool
     then
       do item <- item_getitem model (KInt (pk p));
       item_setattr_quantity model (KInt (pk p)) (quantity item + q)
     else
       match price_ with
       | None => raise (ValueError "Missing price when adding to cart")
       | Some price_ =>
           match CartItem_init p q price_ with
           | Raise e => raise e
           | Ok item => item_setitem model (KInt (pk p)) item
           end
       end);;
    update_session.

Definition remove (p : Product) : M unit :=
  let model := get_product_model_path p in
  do present <- get (λ self, contains self p);
  when present (
    item_delitem model (KInt (pk p));;
    update_session).

Definition remove_single (p : Product) : M unit :=
  let model := get_product_model_path p in
  do present <- get (λ self, contains self p);
  when present (
    do item <- item_getitem model (KInt (pk p));
    (if bool_decide (quantity item ≤ 1)
     then item_delitem model (KInt (pk p))
     else
       do item <- item_getitem model (KInt (pk p));
       item_setattr_quantity model (KInt (pk p)) (quantity item - 1));;
    update_session).

Definition clear : M unit :=
  modify (λ self,
    {| _items_dict := ∅; is_defaultdict := false;
       session := session self; session_key := session_key self |});;
  update_session.

Definition set_quantity (p : Product) (q : Z) : M unit :=
  let model := get_product_model_path p in
  if bool_decide (q < 0)
  then raise (ValueError "Quantity must be positive when updating cart")
  else
    do present <- get (λ self, contains self p);
    when present (
      (do item <- item_getitem model (KInt (pk p));
       item_setattr_quantity model (KInt (pk p)) q);;
      (do item <- item_getitem model (KInt (pk p));
       when (bool_decide (quantity item < 1))
            (item_delitem model (KInt (pk p))));;
      update_session).

(** *** Cart.__init__ *)

Definition lift {A} (r : result A) : M A := λ self, (r, self).

(** [for x in l: body(x)] *)
Definition for_ {A} (l : list A) (body : A → M unit) : M unit :=
  foldr (λ x rest, body x;; rest) (ret tt) l.

Section Init.
Variable env : Environment.

(** [getattr(import_module(mod_path), class_name)]: the class is
    represented by its table [Model.objects.all()]. *)
Definition get_product_model (path : string) : result (list Product) :=
  match objects_all env path with
  | Some Model => Ok Model
  | None => Raise ImportError
  end.

Definition filter_products (queryset : list Product) : list Product :=
  match CART_PRODUCT_LOOKUP env with
  | Some lookup_parameters => List.filter lookup_parameters queryset
  | None => queryset
  end.

(** [queryset.filter(pk__in=keys)]: the integer primary-key field coerces
    every value with [int]. *)
Definition filter_pk__in (keys : list string) (queryset : list Product)
  : result (list Product) :=
  match mapM int keys with
  | Some pks => Ok (List.filter (λ p, bool_decide (pk p ∈ pks)) queryset)
  | None => Raise (ValueError "invalid literal for int() with base 10")
  end.

Definition rebuild (cart_representation : CartRep) : M unit :=
  for_ (map_to_list cart_representation) (λ '(model, items_),
    do Model <- lift (get_product_model model);
    let products_ := filter_products Model in
    do selected <- lift (filter_pk__in (map_to_list items_).*1 products_);
    for_ selected (λ p,
      match cart_representation !! model ≫= (.!! str (pk p)) with
      | None => raise KeyError
      | Some item =>
          match Decimal_of_str (dict_price item) with
          | None => raise InvalidOperation
          | Some d =>
              do item' <- lift (CartItem_init p (dict_quantity item) (PyDecimal d));
              item_setitem model (KStr (str (pk p))) item'
          end
      end)).

(** [session_key or carton_settings.CART_SESSION_KEY] *)
Definition session_key_or_default (session_key_ : option string) : string :=
  match session_key_ with
  | Some k => if bool_decide (k = "") then CART_SESSION_KEY env else k
  | None => CART_SESSION_KEY env
  end.

Definition Cart_init (session_ : Session) (session_key_ : option string)
  : result Cart :=
  let key := session_key_or_default session_key_ in
  let self := {| _items_dict := ∅; is_defaultdict := true;
                 session := session_; session_key := key |} in
  match s_data session_ !! key with
  | None => Ok self
  | Some cart_representation =>
      match rebuild cart_representation self with
      | (Ok _, self') => Ok self'
      | (Raise e, _) => Raise e
      end
  end.

End Init.

(** *** Derived views *)

(** [sum(l)] over integers: [0 + l[0] + l[1] + ...] *)
Definition sum_int (l : list Z) : Z := foldl Z.add 0 l.

(** The value of [sum(l)] over decimals: the [int] 0 of the empty sum, or
    a [Decimal]. *)
Inductive number : Type :=
  | NInt (n : Z)
  | NDecimal (d : Decimal).

(** The decimal operand that a value of [sum] is in an addition. *)
Definition to_Decimal (n : number) : Decimal :=
  match n with
  | NInt n => Decimal_of_int n
  | NDecimal a => a
  end.

(** [acc + d] *)
Definition number_add_Decimal (acc : number) (d : Decimal) : result number :=
  match Decimal_add (to_Decimal acc) d with
  | Ok r => Ok (NDecimal r)
  | Raise e => Raise e
  end.

(** [sum(l)] runs [acc = acc + d] over the list from the left, and ends at
    the first addition that raises. *)
Fixpoint sum_from (acc : number) (l : list Decimal) : result number :=
  match l with
  | [] => Ok acc
  | d :: l =>
      match number_add_Decimal acc d with
      | Ok acc' => sum_from acc' l
      | Raise e => Raise e
      end
  end.

Definition sum_Decimal (l : list Decimal) : result number := sum_from (NInt 0) l.

(** [[item.subtotal for item in l]]: the list of all subtotals is built
    before [sum] is called, and the first subtotal that raises ends the
    call. *)
Fixpoint subtotals (l : list CartItem) : result (list Decimal) :=
  match l with
  | [] => Ok []
  | item :: l =>
      match subtotal item with
      | Ok d =>
          match subtotals l with
          | Ok ds => Ok (d :: ds)
          | Raise e => Raise e
          end
      | Raise e => Raise e
      end
  end.

(** [sum([item.subtotal for item in l])] for the items in the order [l].
    Rounded sums depend on the order of the additions, and so does the
    exception if two operations raise. *)
Definition total_over (l : list CartItem) : result number :=
  match subtotals l with
  | Ok ds => sum_Decimal ds
  | Raise e => Raise e
  end.

Definition count (self : Cart) : Z := sum_int (quantity <$> items self).

Definition unique_count (self : Cart) : nat :=
  length ((map_to_list (_items_dict self)).*2 ≫= λ inner, (map_to_list inner).*2).

Definition is_empty (self : Cart) : bool := bool_decide (unique_count self = 0%nat).

(** [total], with the items in the order of the finite map; the theorems
    about it take the order of the dictionaries as any permutation. *)
Definition total (self : Cart) : result number := total_over (items self).

(** *** Specification vocabulary *)

(** The cart was written to the session in its present state. *)
Definition persisted (self : Cart) : Prop :=
  s_data (session self) !! session_key self = Some (cart_serializable self)
  ∧ s_modified (session self) = true.

(** [self._items_dict[model]] can be indexed: the dictionary is a
    [defaultdict], or it has the key. *)
Definition has_model (self : Cart) (model : string) : bool :=
  is_defaultdict self || bool_decide (is_Some (_items_dict self !! model)).

(** [self'] differs from [self] in the dictionary at most. *)
Definition same_fields (self self' : Cart) : Prop :=
  is_defaultdict self' = is_defaultdict self
  ∧ session self' = session self
  ∧ session_key self' = session_key self.

(** [self'] holds the items of [self]. *)
Definition same_items (self self' : Cart) : Prop :=
  ∀ model k, item_at self' model k = item_at self model k.

(** [self'] holds the items of [self], but for the entry at [model], [k],
    which is [v]. *)
Definition items_but (self : Cart) (model : string) (k : key)
    (v : option CartItem) (self' : Cart) : Prop :=
  ∀ model' k', item_at self' model' k'
               = if decide (model' = model ∧ k' = k) then v
                 else item_at self model' k'.

Definition with_quantity (item : CartItem) (q : Z) : CartItem :=
  {| product := product item; quantity := q; price := price item |}.

(** The items together with the keys they are filed under. *)
Definition items_keyed (self : Cart) : list (string * key * CartItem) :=
  map_to_list (_items_dict self) ≫= λ mi, (λ ki, (mi.1, ki.1, ki.2)) <$> map_to_list mi.2.

(** Well-formed carts: every item is filed under the class path of its
    product and under the primary key of its product, as the [int] itself
    or as its string, and never under both. *)
Definition entry_wf (self : Cart) (e : string * key * CartItem) : bool :=
  let '(model, k, item) := e in
  let n := pk (product item) in
  bool_decide (model = p_model (product item))
  && (bool_decide (k = KInt n) && bool_decide (item_at self model (KStr (str n)) = None)
      || bool_decide (k = KStr (str n)) && bool_decide (item_at self model (KInt n) = None)).

Definition cart_wf (self : Cart) : bool := forallb (entry_wf self) (items_keyed self).

(** The entries of a cart that was built by [add]: filed under the class
    path and the [int] primary key of the product, with a quantity of at
    least 1. *)
Definition entry_ok (model : string) (k : key) (item : CartItem) : Prop :=
  model = p_model (product item) ∧ k = KInt (pk (product item)) ∧ 1 ≤ quantity item.

Definition int_keyed (self : Cart) : Prop :=
  ∀ model k item, item_at self model k = Some item → entry_ok model k item.

(** The product is a row of the table of its class: it is present in the
    backing store. *)
Definition in_store (env : Environment) (p : Product) : bool :=
  match objects_all env (p_model p) with
  | Some Model => bool_decide (p ∈ Model)
  | None => false
  end.

(** The lookup of the settings holds of the product; where no lookup is
    configured, every product passes. *)
Definition passes_lookup (env : Environment) (p : Product) : bool :=
  match CART_PRODUCT_LOOKUP env with
  | Some lookup_parameters => lookup_parameters p
  | None => true
  end.

(** The product is in the backing store and passes the configured
    lookup. *)
Definition available (env : Environment) (p : Product) : bool :=
  in_store env p && passes_lookup env p.

(** The table found at a dotted path holds instances of the class at that
    path. *)
Definition tables_typed (env : Environment) : Prop :=
  ∀ path Model p, objects_all env path = Some Model → p ∈ Model → p_model p = path.

(** The classes of the products of the cart can be imported. *)
Definition importable (env : Environment) (self : Cart) : bool :=
  forallb (λ p, bool_decide (is_Some (objects_all env (p_model p)))) (products self).

(** The entry under which [__init__] files an item of the cart [self] that
    it finds again: the string of the primary key. *)
Definition reloaded (env : Environment) (self : Cart)
    (model : string) (k : key) (item : CartItem) : Prop :=
  k = KStr (str (pk (product item)))
  ∧ model = p_model (product item)
  ∧ item ∈ items self
  ∧ available env (product item) = true.

(** What a caller observes of a call: whether it returned or raised, and
    the items of the cart afterwards. *)
Definition outcome (m : M unit) (self : Cart) : result unit * list CartItem :=
  ((m self).1, items (m self).2).

(** The property [cart_wf] decides. *)
Definition filed_by_product (self : Cart) : Prop :=
  ∀ model k item, item_at self model k = Some item →
    model = p_model (product item)
    ∧ (k = KInt (pk (product item))
         ∧ item_at self model (KStr (str (pk (product item)))) = None
       ∨ k = KStr (str (pk (product item)))
         ∧ item_at self model (KInt (pk (product item))) = None).

(** The entries of a cart that [__init__] rebuilt: filed under the class
    path of the product and the string of its primary key. *)
Definition str_keyed (self : Cart) : Prop :=
  ∀ model k item, item_at self model k = Some item →
    model = p_model (product item) ∧ k = KStr (str (pk (product item))).

(** The loop of [__init__] over the representation of the cart [c], begun
    on [self0]: after the classes [done], the cart holds the reloaded
    items of these classes. *)
Definition rebuilt_from (env : Environment) (c self0 : Cart)
    (done : list string) (self : Cart) : Prop :=
  same_fields self0 self
  ∧ ∀ m k i, item_at self m k = Some i ↔ m ∈ done ∧ reloaded env c m k i.

(** After the products [done_p] of the class [m] as well. *)
Definition rebuilding_from (env : Environment) (c self0 : Cart)
    (done : list string) (m : string) (done_p : list Product) (self : Cart) : Prop :=
  same_fields self0 self
  ∧ ∀ m' k i, item_at self m' k = Some i
              ↔ (m' ∈ done ∨ m' = m ∧ product i ∈ done_p) ∧ reloaded env c m' k i.

(** The mutating methods, as a caller invokes them. *)
Inductive call : Type :=
  | Add (p : Product) (price_ : option pyval) (q : Z)
  | Remove (p : Product)
  | RemoveSingle (p : Product)
  | Clear
  | SetQuantity (p : Product) (q : Z).

Definition exec (op : call) : M unit :=
  match op with
  | Add p price_ q => add p price_ q
  | Remove p => remove p
  | RemoveSingle p => remove_single p
  | Clear => clear
  | SetQuantity p q => set_quantity p q
  end.

(** The carts a caller obtains from an empty cart; a call that raises
    leaves the cart as it was when the exception left the method. *)
Inductive reachable : Cart → Prop :=
  | reachable_empty self : items self = [] → reachable self
  | reachable_call self op : reachable self → reachable (exec op self).2.

(** The carts a caller obtains at all: [Cart(session)] on any session,
    then calls. *)
Inductive constructed (env : Environment) : Cart → Prop :=
  | constructed_init session_ session_key_ self :
      Cart_init env session_ session_key_ = Ok self → constructed env self
  | constructed_call self op :
      constructed env self → constructed env (exec op self).2.

(** The item [item] was read from the representation [rep]: its product
    is available, and its quantity and price are those of the record under
    the class path and the string of the primary key. *)
Definition read_from (env : Environment) (rep : CartRep) (item : CartItem) : Prop :=
  available env (product item) = true
  ∧ ∃ dct, rep !! p_model (product item) ≫= (.!! str (pk (product item))) = Some dct
           ∧ quantity item = dict_quantity dct
           ∧ Decimal_of_str (dict_price dct) = Some (price item).

(** The quantity the entry [v] adds to [count], and the number of items
    it adds to [unique_count]. *)
Definition quantity_of (v : option CartItem) : Z := default 0 (quantity <$> v).

Definition entries_of (v : option CartItem) : nat :=
  match v with Some _ => 1%nat | None => 0%nat end.

(** The sum of the quantities of a list of items. *)
Definition quantities (l : list CartItem) : Z := foldr (λ i n, quantity i + n) 0 l.

(** The sum of [price × quantity] over a list of items, as the
    specification words [total]: each product is added to the sum of the
    items before it, from zero; [None] where a product or a sum has no
    value because the arithmetic raises. *)
Fixpoint sum_of_products (acc : Decimal) (l : list CartItem) : option Decimal :=
  match l with
  | [] => Some acc
  | i :: l =>
      match Decimal_mul (price i) (Decimal_of_int (quantity i)) with
      | Ok s =>
          match Decimal_add acc s with
          | Ok acc' => sum_of_products acc' l
          | Raise _ => None
          end
      | Raise _ => None
      end
  end.

(** The number of distinct products among the items of the cart. *)
Definition distinct_products (self : Cart) : nat :=
  length (remove_dups (products self)).

(** How many of the product [p] the cart holds. *)
Definition quantity_in (self : Cart) (p : Product) : Z :=
  quantities (filter (λ i, product i = p) (items self)).

End Carton.

Arguments pyval {DM}.
Arguments CartItem {DM}.
Arguments Cart {DM}.
Arguments M {DM} A.
Arguments number {DM}.

(** ** Decimals without a fractional part

    The instance on which the examples are evaluated: the decimals that
    are integers, read from an integer literal and written as one.  Sums
    and products are rounded as the default context of [decimal] rounds
    them: to 28 significant digits, a tie to the even digit, with
    [Overflow] for a result of 10^1000000 or more. *)

Definition digits (n : Z) : Z := Z.of_nat (String.length (str (Z.abs n))).

Definition round_context (n : Z) : result Z :=
  let k := digits n - 28 in
  let r :=
    if bool_decide (k ≤ 0) then n
    else
      let e := 10 ^ k in
      let q := Z.abs n / e in
      let rest := Z.abs n mod e in
      let q' :=
        if bool_decide (2 * rest < e) then q
        else if bool_decide (e < 2 * rest) then q + 1
        else if Z.even q then q else q + 1 in
      Z.sgn n * q' * e in
  if bool_decide (1000000 < digits r) then Raise Overflow else Ok r.

Lemma digits_of_string_of_uint (d : Decimal.uint) (b : bool) :
  digits_of b (NilEmpty.string_of_uint d)
  = if b then Some (NilEmpty.string_of_uint d)
    else match d with Decimal.Nil => None | _ => Some (NilEmpty.string_of_uint d) end.
Proof.
  revert b. induction d; intros b; simpl;
    [done|rewrite IHd; by destruct b..].
Qed.

Lemma literal_string_of_uint (d : Decimal.uint) :
  d ≠ Decimal.Nil → literal (NilEmpty.string_of_uint d) = Some d.
Proof.
  intros Hd. unfold literal. rewrite digits_of_string_of_uint.
  destruct d; [done|simpl; by rewrite NilEmpty.usu..].
Qed.

(** [int(str(n)) == n] *)
Lemma int_str (n : Z) : int (str n) = Some n.
Proof.
  unfold str.
  assert (∀ p, Pos.to_uint p ≠ Decimal.Nil) as Hnil.
  { intros p H. by apply DecimalPos.Unsigned.to_uint_nonnil in H. }
  destruct n as [|p|p]; [done|..]; simpl.
  - pose proof (literal_string_of_uint _ (Hnil p)) as Hlit.
    unfold int. rewrite <-(DecimalZ.of_to (Z.pos p)). simpl.
    destruct (Pos.to_uint p) eqn:E; [done|simpl in *; by rewrite Hlit..].
  - pose proof (literal_string_of_uint _ (Hnil p)) as Hlit.
    unfold int. rewrite <-(DecimalZ.of_to (Z.neg p)). simpl.
    destruct (Pos.to_uint p) eqn:E; [done|simpl in *; by rewrite Hlit..].
Qed.

Definition IntegerDecimal : DecimalModule :=
  {| Decimal := Z;
     Decimal_of_str := int;
     str_of_Decimal := str;
     Decimal_of_int := λ n, n;
     Decimal_add := λ a b, round_context (a + b);
     Decimal_mul := λ a b, round_context (a * b);
     Decimal_of_str_of_Decimal := int_str |}.

Module Examples.
Local Existing Instance IntegerDecimal.

Definition Product1 : Product := {| p_model := "carton.tests.models.Product"; pk := 1 |}.
Definition Product2 : Product := {| p_model := "carton.tests.models.Product"; pk := 2 |}.
Definition Ticket1 : Product := {| p_model := "carton.tests.models.Ticket"; pk := 1 |}.

Definition env : Environment :=
  {| CART_SESSION_KEY := "CART";
     CART_PRODUCT_LOOKUP := None;
     objects_all := λ path,
       if bool_decide (path = "carton.tests.models.Product") then Some [Product1; Product2]
       else if bool_decide (path = "carton.tests.models.Ticket") then Some [Ticket1]
       else None |}.

Definition empty_session : Session := {| s_data := ∅; s_modified := false |}.

(** [Cart(session)] on a session without a cart. *)
Definition fresh_cart : Cart :=
  {| _items_dict := ∅; is_defaultdict := true;
     session := empty_session; session_key := "CART" |}.

(** [cart.add(Product1, price=10, quantity=2)] *)
Definition cart_1 : Cart := (exec (Add Product1 (Some (PyInt 10)) 2) fresh_cart).2.

(** then [cart.add(Ticket1, price='7')] and [cart.add(Product2, price=3)] *)
Definition cart_3 : Cart :=
  (exec (Add Product2 (Some (PyInt 3)) 1)
     (exec (Add Ticket1 (Some (PyStr "7")) 1) cart_1).2).2.

(** [cart.clear()] on the fresh cart *)
Definition cleared_cart : Cart := (exec Clear fresh_cart).2.

(** The cart of the next request: [Cart(session)] on the session that
    [cart_1] wrote. *)
Definition reloaded_cart : Cart :=
  match Cart_init env (session cart_1) None with
  | Ok self => self
  | Raise _ => fresh_cart
  end.

(** The settings with [CART_PRODUCT_LOOKUP = {'pk__lt': 2}], and the
    tables after [Ticket1] was deleted. *)
Definition env_lookup : Environment :=
  {| CART_SESSION_KEY := "CART";
     CART_PRODUCT_LOOKUP := Some (λ p, bool_decide (pk p < 2));
     objects_all := λ path,
       if bool_decide (path = "carton.tests.models.Product") then Some [Product1; Product2]
       else if bool_decide (path = "carton.tests.models.Ticket") then Some []
       else None |}.

(** [Cart(session)] under these settings, on the session that [cart_3]
    wrote. *)
Definition filtered_cart : Cart :=
  match Cart_init env_lookup (session cart_3) None with
  | Ok self => self
  | Raise _ => fresh_cart
  end.

(** A session whose cart names a class that no longer exists. *)
Definition stale_session : Session :=
  {| s_data := {[ "CART" := {[ "shop.models.Gone" := ∅ ]} ]}; s_modified := false |}.

(** A session whose cart holds a key that [int] does not read. *)
Definition malformed_entry : gmap string ItemDict :=
  {[ "1.5" := {| dict_product_pk := 1; dict_quantity := 2; dict_price := "10" |} ]}.

Definition malformed_session : Session :=
  {| s_data := {[ "CART" := {[ "carton.tests.models.Product" := malformed_entry ]} ]};
     s_modified := false |}.

End Examples.

(** * Properties *)

Section Properties.
Context `{DM : DecimalModule}.

Implicit Types (self c : Cart) (p : Product) (i item : CartItem) (k : key)
  (model m : string).

(** ** The flat list of items and the nested dictionary *)

Lemma elem_of_items c i :
  i ∈ items c ↔ ∃ m k, item_at c m k = Some i.
Proof.
  unfold items, item_at. rewrite list_elem_of_bind. split.
  - intros (inner & Hi & Hinner).
    apply list_elem_of_fmap in Hi as ([k i'] & -> & Hi).
    apply list_elem_of_fmap in Hinner as ([m inner'] & -> & Hinner).
    apply elem_of_map_to_list in Hi, Hinner. simpl in *.
    exists m, k. by rewrite Hinner.
  - intros (m & k & H).
    destruct (_items_dict c !! m) as [inner|] eqn:Hm; [simpl in H|done].
    exists inner. split.
    + apply list_elem_of_fmap. exists (k, i). by rewrite elem_of_map_to_list.
    + apply list_elem_of_fmap. exists (m, inner). by rewrite elem_of_map_to_list.
Qed.

Lemma elem_of_products c p :
  p ∈ products c ↔ ∃ m k i, item_at c m k = Some i ∧ product i = p.
Proof.
  unfold products. rewrite list_elem_of_fmap. split.
  - intros (i & -> & Hi). apply elem_of_items in Hi as (m & k & Hi). eauto.
  - intros (m & k & i & Hi & <-). exists i. split; [done|].
    apply elem_of_items. eauto.
Qed.

Lemma items_empty_dict c : _items_dict c = ∅ → items c = [].
Proof. unfold items. intros ->. by rewrite map_to_list_empty. Qed.

Lemma items_items_keyed c : items c = snd <$> items_keyed c.
Proof.
  unfold items, items_keyed.
  induction (map_to_list (_items_dict c)) as [|[m inner] l IH]; [done|].
  rewrite fmap_cons, !bind_cons, fmap_app, IH. f_equal.
  rewrite <-list_fmap_compose. by apply list_fmap_ext.
Qed.

Lemma elem_of_items_keyed c m k i :
  (m, k, i) ∈ items_keyed c ↔ item_at c m k = Some i. 
Proof.
  unfold items_keyed, item_at. rewrite list_elem_of_bind. split.
  - intros ([m' inner] & Hi & Hinner). simpl in Hi.
    apply list_elem_of_fmap in Hi as ([k' i'] & [= -> -> ->] & Hi).
    apply elem_of_map_to_list in Hi, Hinner. by rewrite Hinner.
  - intros H. destruct (_items_dict c !! m) as [inner|] eqn:Hm; [simpl in H|done].
    exists (m, inner). split; [|by apply elem_of_map_to_list].
    apply list_elem_of_fmap. exists (k, i). by rewrite elem_of_map_to_list.
Qed.

Lemma NoDup_items_keyed c : NoDup (items_keyed c).
Proof.
  unfold items_keyed. apply NoDup_bind.
  - intros [m1 inner1] [m2 inner2] [[m k] i] H1 H2 Hy1 Hy2. simpl in *.
    apply list_elem_of_fmap in Hy1 as ([k1 i1] & [= -> -> ->] & _).
    apply list_elem_of_fmap in Hy2 as ([k2 i2] & [= -> -> ->] & _).
    apply elem_of_map_to_list in H1, H2. congruence.
  - intros [m inner] _. simpl. apply NoDup_fmap_2_strong; [|apply NoDup_map_to_list].
    by intros [k1 i1] [k2 i2] _ _ [= -> ->].
  - apply NoDup_map_to_list.
Qed.

Lemma cart_wf_filed c : cart_wf c = true ↔ filed_by_product c.
Proof.
  unfold cart_wf, filed_by_product. rewrite forallb_forall. split.
  - intros Hwf m k i Hi.
    apply elem_of_items_keyed, list_elem_of_In, Hwf in Hi. simpl in Hi.
    apply andb_prop in Hi as [Hm Hk]. apply bool_decide_eq_true in Hm.
    split; [done|].
    apply orb_prop in Hk as [Hk|Hk]; apply andb_prop in Hk as [Hk Hnone];
      apply bool_decide_eq_true in Hk, Hnone; auto.
  - intros H [[m k] i] Hi%list_elem_of_In%elem_of_items_keyed.
    destruct (H _ _ _ Hi) as [Hm Hk]. simpl.
    rewrite (bool_decide_eq_true_2 _ Hm). simpl.
    apply orb_true_intro.
    destruct Hk as [[-> Hn]|[-> Hn]]; [left|right];
      apply andb_true_intro; split; by apply bool_decide_eq_true_2.
Qed.

Lemma cart_wf_entry c m k i :
  cart_wf c = true → item_at c m k = Some i →
  m = p_model (product i)
  ∧ (k = KInt (pk (product i)) ∧ item_at c m (KStr (str (pk (product i)))) = None
     ∨ k = KStr (str (pk (product i))) ∧ item_at c m (KInt (pk (product i))) = None).
Proof. intros Hwf%cart_wf_filed. apply Hwf. Qed.

Lemma cart_wf_intro c : filed_by_product c → cart_wf c = true.
Proof. apply cart_wf_filed. Qed.

(** In a well-formed cart two items of one product are the same entry. *)
Lemma cart_wf_same_entry c m1 k1 i1 m2 k2 i2 :
  cart_wf c = true → item_at c m1 k1 = Some i1 → item_at c m2 k2 = Some i2 →
  product i1 = product i2 → m1 = m2 ∧ k1 = k2 ∧ i1 = i2.
Proof.
  intros Hwf H1 H2 Hp.
  destruct (cart_wf_entry _ _ _ _ Hwf H1) as [-> Hk1].
  destruct (cart_wf_entry _ _ _ _ Hwf H2) as [-> Hk2].
  rewrite Hp in *.
  assert (k1 = k2) as ->.
  { destruct Hk1 as [[-> ?]|[-> ?]], Hk2 as [[-> ?]|[-> ?]]; congruence. }
  split; [done|]. split; [done|]. congruence.
Qed.

Lemma cart_wf_NoDup_products c : cart_wf c = true → NoDup (products c).
Proof.
  intros Hwf. unfold products. rewrite items_items_keyed, <-list_fmap_compose.
  apply NoDup_fmap_2_strong; [|apply NoDup_items_keyed].
  intros [[m1 k1] i1] [[m2 k2] i2] H1%elem_of_items_keyed H2%elem_of_items_keyed Hp.
  simpl in Hp. destruct (cart_wf_same_entry _ _ _ _ _ _ _ Hwf H1 H2 Hp) as (-> & -> & ->).
  done.
Qed.

Lemma remove_dups_NoDup {A} `{EqDecision A} (l : list A) :
  NoDup l → remove_dups l = l.
Proof.
  induction 1 as [|x l Hx _ IH]; [done|].
  simpl. destruct (decide_rel elem_of x l); [done|by rewrite IH].
Qed.

Lemma foldl_add_foldr (l : list Z) (a : Z) :
  foldl Z.add a l = a + foldr Z.add 0 l.
Proof.
  revert a. induction l as [|x l IH]; intros a; simpl; [lia|].
  rewrite IH. lia.
Qed.

(** ** The dictionary accesses *)

Lemma same_items_items c c' :
  same_items c c' → ∀ i, i ∈ items c' ↔ i ∈ items c.
Proof.
  intros H i. rewrite !elem_of_items.
  split; intros (m & k & Hi); exists m, k; by rewrite ?H in *.
Qed.

Lemma same_items_products c c' :
  same_items c c' → ∀ p, p ∈ products c' ↔ p ∈ products c.
Proof.
  intros H p. unfold products. rewrite !list_elem_of_fmap.
  split; intros (i & -> & Hi); exists i; (split; [done|]);
    by apply (same_items_items _ _ H).
Qed.

Lemma items_dict_getitem_spec m c :
  ∃ c', same_items c c' ∧ same_fields c c'
    ∧ (if has_model c m
       then items_dict_getitem m c = (Ok (default ∅ (_items_dict c !! m)), c')
            ∧ _items_dict c' !! m = Some (default ∅ (_items_dict c !! m))
            ∧ (∀ m', m' ≠ m → _items_dict c' !! m' = _items_dict c !! m')
       else items_dict_getitem m c = (Raise KeyError, c') ∧ c' = c).
Proof.
  unfold has_model, items_dict_getitem.
  destruct (_items_dict c !! m) as [inner|] eqn:Hm.
  - exists c. rewrite (bool_decide_eq_true_2 (is_Some _)) by eauto.
    rewrite orb_true_r. by repeat split.
  - rewrite (bool_decide_eq_false_2 (is_Some _)) by by intros [? [=]].
    rewrite orb_false_r. destruct (is_defaultdict c) eqn:Hdd; [|by exists c].
    exists (set_items_dict (<[m:=∅]> (_items_dict c)) c).
    split; [|split; [done|]].
    + intros m' k'. unfold item_at. simpl.
      destruct (decide (m' = m)) as [->|].
      * by rewrite lookup_insert_eq, Hm.
      * by rewrite lookup_insert_ne.
    + simpl. split; [done|]. split; [by rewrite lookup_insert_eq|].
      intros m' ?. by rewrite lookup_insert_ne.
Qed.

Lemma item_getitem_Some m k c item :
  item_at c m k = Some item → item_getitem m k c = (Ok item, c).
Proof.
  unfold item_at, item_getitem, bind, items_dict_getitem. intros H.
  destruct (_items_dict c !! m) as [inner|]; [simpl in H|done].
  by rewrite H.
Qed.

Lemma item_getitem_None m k c :
  item_at c m k = None →
  ∃ c', item_getitem m k c = (Raise KeyError, c')
        ∧ same_items c c' ∧ same_fields c c'.
Proof.
  intros H. unfold item_getitem, bind.
  destruct (items_dict_getitem_spec m c) as (c' & Hitems & Hfields & Hget).
  destruct (has_model c m).
  - destruct Hget as (-> & Hm & _). exists c'. split; [|done].
    unfold item_at in H. destruct (_items_dict c !! m) as [inner|]; simpl in *.
    + by rewrite H.
    + by rewrite lookup_empty.
  - destruct Hget as [-> ->]. by exists c.
Qed.

Lemma item_setitem_spec m k item c :
  if has_model c m
  then ∃ c', item_setitem m k item c = (Ok tt, c')
             ∧ items_but c m k (Some item) c' ∧ same_fields c c'
  else item_setitem m k item c = (Raise KeyError, c).
Proof.
  unfold item_setitem, bind.
  destruct (items_dict_getitem_spec m c) as (c' & Hitems & Hfields & Hget).
  destruct (has_model c m).
  - destruct Hget as (-> & Hm & Hother). eexists. split; [reflexivity|].
    split; [|done]. intros m' k'. unfold item_at at 1. simpl.
    case_decide as Hmk.
    + destruct Hmk as [-> ->]. rewrite lookup_insert_eq. simpl.
      by rewrite lookup_insert_eq.
    + destruct (decide (m' = m)) as [->|Hne].
      * rewrite lookup_insert_eq. simpl.
        rewrite lookup_insert_ne by naive_solver.
        rewrite <-Hitems. unfold item_at. by rewrite Hm.
      * rewrite lookup_insert_ne by done.
        rewrite <-Hitems. unfold item_at. done.
  - by destruct Hget as [-> ->].
Qed.

Lemma item_delitem_Some m k c item :
  item_at c m k = Some item →
  ∃ c', item_delitem m k c = (Ok tt, c')
        ∧ items_but c m k None c' ∧ same_fields c c'.
Proof.
  unfold item_at, item_delitem, bind, items_dict_getitem. intros H.
  destruct (_items_dict c !! m) as [inner|] eqn:Hm; [simpl in H|done].
  rewrite H. eexists. split; [reflexivity|]. split; [|done].
  intros m' k'. unfold item_at. simpl. case_decide as Hmk.
  - destruct Hmk as [-> ->]. by rewrite lookup_insert_eq; simpl; rewrite lookup_delete_eq.
  - destruct (decide (m' = m)) as [->|Hne].
    + rewrite lookup_insert_eq, Hm. simpl. rewrite lookup_delete_ne; naive_solver.
    + by rewrite lookup_insert_ne.
Qed.

Lemma item_delitem_None m k c :
  item_at c m k = None →
  ∃ c', item_delitem m k c = (Raise KeyError, c')
        ∧ same_items c c' ∧ same_fields c c'.
Proof.
  intros H. unfold item_delitem, bind.
  destruct (items_dict_getitem_spec m c) as (c' & Hitems & Hfields & Hget).
  destruct (has_model c m).
  - destruct Hget as (-> & Hm & _). exists c'. split; [|done].
    unfold item_at in H. destruct (_items_dict c !! m) as [inner|]; simpl in *.
    + by rewrite H.
    + by rewrite lookup_empty.
  - destruct Hget as [-> ->]. by exists c.
Qed.

Lemma item_setattr_quantity_spec m k q c :
  ∃ c', item_setattr_quantity m k q c = (Ok tt, c')
        ∧ items_but c m k
            ((λ item, {| product := product item; quantity := q; price := price item |})
               <$> item_at c m k) c'
        ∧ same_fields c c'.
Proof.
  eexists. split; [reflexivity|]. split; [|done].
  intros m' k'. unfold item_at. simpl. case_decide as Hmk.
  - destruct Hmk as [-> ->]. rewrite lookup_alter_eq.
    destruct (_items_dict c !! m) as [inner|]; simpl; [|done].
    by rewrite lookup_alter_eq.
  - destruct (decide (m' = m)) as [->|Hne].
    + rewrite lookup_alter_eq.
      destruct (_items_dict c !! m) as [inner|]; simpl; [|done].
      rewrite lookup_alter_ne; naive_solver.
    + by rewrite lookup_alter_ne.
Qed.

Lemma update_session_spec c :
  ∃ c', update_session c = (Ok tt, c')
        ∧ _items_dict c' = _items_dict c
        ∧ is_defaultdict c' = is_defaultdict c
        ∧ session_key c' = session_key c
        ∧ persisted c'.
Proof.
  eexists. split; [reflexivity|]. simpl. repeat split.
  unfold persisted. simpl. by rewrite lookup_insert_eq.
Qed.

Lemma same_dict_same_items c c' :
  _items_dict c' = _items_dict c → same_items c c'.
Proof. intros H m k. unfold item_at. by rewrite H. Qed.

(** ** The outcomes of [add] *)

Lemma contains_false c p : p ∉ products c → contains c p = false.
Proof. intros. unfold contains. by apply bool_decide_eq_false_2. Qed.

Lemma contains_true c p : p ∈ products c → contains c p = true.
Proof. intros. unfold contains. by apply bool_decide_eq_true_2. Qed.

Lemma add_quantity_below_1 p price_ q c :
  q < 1 →
  add p price_ q c
  = (Raise (ValueError "Quantity must be at least 1 when adding to cart"), c).
Proof. intros. unfold add. by rewrite bool_decide_eq_true_2. Qed.

Lemma add_missing_price p q c :
  1 ≤ q → p ∉ products c →
  add p None q c = (Raise (ValueError "Missing price when adding to cart"), c).
Proof.
  intros Hq Hp%contains_false. unfold add, bind, get.
  rewrite bool_decide_eq_false_2 by lia. by rewrite Hp.
Qed.

Lemma add_malformed_price p v q c :
  1 ≤ q → p ∉ products c → Decimal_of_str (py_str v) = None →
  add p (Some v) q c = (Raise InvalidOperation, c).
Proof.
  intros Hq Hp%contains_false Hv. unfold add, bind, get, CartItem_init.
  rewrite bool_decide_eq_false_2 by lia. by rewrite Hp, Hv.
Qed.

Lemma add_new_product p v d q c :
  1 ≤ q → p ∉ products c → Decimal_of_str (py_str v) = Some d →
  has_model c (p_model p) = true →
  ∃ c', add p (Some v) q c = (Ok tt, c')
        ∧ items_but c (p_model p) (KInt (pk p))
            (Some {| product := p; quantity := q; price := d |}) c'
        ∧ is_defaultdict c' = is_defaultdict c
        ∧ session_key c' = session_key c
        ∧ persisted c'.
Proof.
  intros Hq Hp%contains_false Hv Hmodel. unfold add, bind, get, CartItem_init.
  rewrite bool_decide_eq_false_2 by lia. rewrite Hp, Hv.
  pose proof (item_setitem_spec (get_product_model_path p) (KInt (pk p))
    {| product := p; quantity := q; price := d |} c) as Hset.
  unfold get_product_model_path in *. rewrite Hmodel in Hset.
  destruct Hset as (c1 & -> & Hitems & Hdd & Hsess & Hkey).
  destruct (update_session_spec c1) as (c2 & -> & Hdict & Hdd2 & Hkey2 & Hpers).
  exists c2. split; [done|]. split; [|by rewrite Hdd2, Hkey2, Hdd, Hkey].
  intros m' k'. rewrite (same_dict_same_items _ _ Hdict). apply Hitems.
Qed.

Lemma add_new_product_plain_dict p v d q c :
  1 ≤ q → p ∉ products c → Decimal_of_str (py_str v) = Some d →
  has_model c (p_model p) = false →
  add p (Some v) q c = (Raise KeyError, c).
Proof.
  intros Hq Hp%contains_false Hv Hmodel. unfold add, bind, get, CartItem_init.
  rewrite bool_decide_eq_false_2 by lia. rewrite Hp, Hv.
  pose proof (item_setitem_spec (get_product_model_path p) (KInt (pk p))
    {| product := p; quantity := q; price := d |} c) as Hset.
  unfold get_product_model_path in *. rewrite Hmodel in Hset. by rewrite Hset.
Qed.

Lemma add_existing_product p price_ q c item :
  1 ≤ q → p ∈ products c → item_at c (p_model p) (KInt (pk p)) = Some item →
  ∃ c', add p price_ q c = (Ok tt, c')
        ∧ items_but c (p_model p) (KInt (pk p))
            (Some (with_quantity item (quantity item + q))) c'
        ∧ is_defaultdict c' = is_defaultdict c
        ∧ session_key c' = session_key c
        ∧ persisted c'.
Proof.
  intros Hq Hp%contains_true Hitem. unfold add, bind, get.
  rewrite bool_decide_eq_false_2 by lia. rewrite Hp.
  unfold get_product_model_path. rewrite (item_getitem_Some _ _ _ _ Hitem).
  destruct (item_setattr_quantity_spec (p_model p) (KInt (pk p)) (quantity item + q) c)
    as (c1 & -> & Hitems & Hdd & Hsess & Hkey).
  destruct (update_session_spec c1) as (c2 & -> & Hdict & Hdd2 & Hkey2 & Hpers).
  exists c2. split; [done|]. split; [|by rewrite Hdd2, Hkey2, Hdd, Hkey].
  intros m' k'. rewrite (same_dict_same_items _ _ Hdict), Hitems.
  by rewrite Hitem.
Qed.

Lemma add_existing_product_str_key p price_ q c :
  1 ≤ q → p ∈ products c → item_at c (p_model p) (KInt (pk p)) = None →
  ∃ c', add p price_ q c = (Raise KeyError, c')
        ∧ same_items c c' ∧ same_fields c c'.
Proof.
  intros Hq Hp%contains_true Hitem. unfold add, bind, get.
  rewrite bool_decide_eq_false_2 by lia. rewrite Hp.
  unfold get_product_model_path.
  destruct (item_getitem_None _ _ _ Hitem) as (c' & -> & ?). by exists c'.
Qed.

(** ** The outcomes of [remove], [remove_single] and [set_quantity] *)

Lemma items_but_trans c m k v c1 v' c2 :
  items_but c m k v c1 → items_but c1 m k v' c2 → items_but c m k v' c2.
Proof.
  intros H1 H2 m' k'. rewrite H2. case_decide; [done|].
  rewrite H1. by rewrite decide_False.
Qed.

Lemma items_but_same c m k v c1 c2 :
  items_but c m k v c1 → _items_dict c2 = _items_dict c1 → items_but c m k v c2.
Proof. intros H1 H2 m' k'. by rewrite (same_dict_same_items _ _ H2). Qed.

Lemma items_but_at c m k v c' : items_but c m k v c' → item_at c' m k = v.
Proof. intros H. rewrite H. by rewrite decide_True. Qed.

Lemma remove_absent p c : p ∉ products c → remove p c = (Ok tt, c).
Proof. intros Hp%contains_false. unfold remove, bind, get. by rewrite Hp. Qed.

Lemma remove_present p c item :
  p ∈ products c → item_at c (p_model p) (KInt (pk p)) = Some item →
  ∃ c', remove p c = (Ok tt, c')
        ∧ items_but c (p_model p) (KInt (pk p)) None c'
        ∧ is_defaultdict c' = is_defaultdict c
        ∧ session_key c' = session_key c
        ∧ persisted c'.
Proof.
  intros Hp%contains_true Hitem. unfold remove, bind, get. rewrite Hp. simpl.
  unfold bind, get_product_model_path.
  destruct (item_delitem_Some _ _ _ _ Hitem) as (c1 & -> & Hitems & Hdd & Hsess & Hkey).
  destruct (update_session_spec c1) as (c2 & -> & Hdict & Hdd2 & Hkey2 & Hpers).
  exists c2. split; [done|]. split; [|by rewrite Hdd2, Hkey2, Hdd, Hkey].
  by eapply items_but_same.
Qed.

Lemma remove_present_str_key p c :
  p ∈ products c → item_at c (p_model p) (KInt (pk p)) = None →
  ∃ c', remove p c = (Raise KeyError, c') ∧ same_items c c' ∧ same_fields c c'.
Proof.
  intros Hp%contains_true Hitem. unfold remove, bind, get. rewrite Hp. simpl.
  unfold bind, get_product_model_path.
  destruct (item_delitem_None _ _ _ Hitem) as (c' & -> & ?). by exists c'.
Qed.

Lemma remove_single_absent p c : p ∉ products c → remove_single p c = (Ok tt, c).
Proof. intros Hp%contains_false. unfold remove_single, bind, get. by rewrite Hp. Qed.

Lemma remove_single_last p c item :
  p ∈ products c → item_at c (p_model p) (KInt (pk p)) = Some item →
  quantity item ≤ 1 →
  ∃ c', remove_single p c = (Ok tt, c')
        ∧ items_but c (p_model p) (KInt (pk p)) None c'
        ∧ is_defaultdict c' = is_defaultdict c
        ∧ session_key c' = session_key c
        ∧ persisted c'.
Proof.
  intros Hp%contains_true Hitem Hq. unfold remove_single, bind, get. rewrite Hp. simpl.
  unfold bind, get_product_model_path.
  rewrite (item_getitem_Some _ _ _ _ Hitem).
  rewrite bool_decide_eq_true_2 by done.
  destruct (item_delitem_Some _ _ _ _ Hitem) as (c1 & -> & Hitems & Hdd & Hsess & Hkey).
  destruct (update_session_spec c1) as (c2 & -> & Hdict & Hdd2 & Hkey2 & Hpers).
  exists c2. split; [done|]. split; [|by rewrite Hdd2, Hkey2, Hdd, Hkey].
  by eapply items_but_same.
Qed.

Lemma remove_single_decrements p c item :
  p ∈ products c → item_at c (p_model p) (KInt (pk p)) = Some item →
  1 < quantity item →
  ∃ c', remove_single p c = (Ok tt, c')
        ∧ items_but c (p_model p) (KInt (pk p))
            (Some (with_quantity item (quantity item - 1))) c'
        ∧ is_defaultdict c' = is_defaultdict c
        ∧ session_key c' = session_key c
        ∧ persisted c'.
Proof.
  intros Hp%contains_true Hitem Hq. unfold remove_single, bind, get. rewrite Hp. simpl.
  unfold bind, get_product_model_path.
  rewrite (item_getitem_Some _ _ _ _ Hitem).
  rewrite bool_decide_eq_false_2 by lia.
  rewrite (item_getitem_Some _ _ _ _ Hitem).
  destruct (item_setattr_quantity_spec (p_model p) (KInt (pk p)) (quantity item - 1) c)
    as (c1 & -> & Hitems & Hdd & Hsess & Hkey).
  destruct (update_session_spec c1) as (c2 & -> & Hdict & Hdd2 & Hkey2 & Hpers).
  exists c2. split; [done|]. split; [|by rewrite Hdd2, Hkey2, Hdd, Hkey].
  rewrite Hitem in Hitems. by eapply items_but_same.
Qed.

Lemma remove_single_str_key p c :
  p ∈ products c → item_at c (p_model p) (KInt (pk p)) = None →
  ∃ c', remove_single p c = (Raise KeyError, c')
        ∧ same_items c c' ∧ same_fields c c'.
Proof.
  intros Hp%contains_true Hitem. unfold remove_single, bind, get. rewrite Hp. simpl.
  unfold bind, get_product_model_path.
  destruct (item_getitem_None _ _ _ Hitem) as (c' & -> & ?). by exists c'.
Qed.

Lemma set_quantity_negative p q c :
  q < 0 →
  set_quantity p q c
  = (Raise (ValueError "Quantity must be positive when updating cart"), c).
Proof. intros. unfold set_quantity. by rewrite bool_decide_eq_true_2. Qed.

Lemma set_quantity_absent p q c :
  0 ≤ q → p ∉ products c → set_quantity p q c = (Ok tt, c).
Proof.
  intros Hq Hp%contains_false. unfold set_quantity, bind, get.
  rewrite bool_decide_eq_false_2 by lia. by rewrite Hp.
Qed.

Lemma set_quantity_present p q c item :
  0 ≤ q → p ∈ products c → item_at c (p_model p) (KInt (pk p)) = Some item →
  ∃ c', set_quantity p q c = (Ok tt, c')
        ∧ items_but c (p_model p) (KInt (pk p))
            (if bool_decide (q < 1) then None else Some (with_quantity item q)) c'
        ∧ is_defaultdict c' = is_defaultdict c
        ∧ session_key c' = session_key c
        ∧ persisted c'.
Proof.
  intros Hq Hp%contains_true Hitem. unfold set_quantity.
  rewrite bool_decide_eq_false_2 by lia.
  unfold bind, get. rewrite Hp. simpl. unfold bind, get_product_model_path.
  rewrite (item_getitem_Some _ _ _ _ Hitem).
  destruct (item_setattr_quantity_spec (p_model p) (KInt (pk p)) q c)
    as (c1 & -> & Hitems & Hdd & Hsess & Hkey).
  rewrite Hitem in Hitems. simpl in Hitems.
  rewrite (item_getitem_Some _ _ _ _ (items_but_at _ _ _ _ _ Hitems)). simpl.
  destruct (bool_decide (q < 1)); simpl.
  - destruct (item_delitem_Some _ _ _ _ (items_but_at _ _ _ _ _ Hitems))
      as (c2 & -> & Hitems2 & Hdd2 & Hsess2 & Hkey2).
    destruct (update_session_spec c2) as (c3 & -> & Hdict & Hdd3 & Hkey3 & Hpers).
    exists c3. split; [done|].
    split; [|by rewrite Hdd3, Hkey3, Hdd2, Hkey2, Hdd, Hkey].
    eapply items_but_same; [|done]. by eapply items_but_trans.
  - unfold ret.
    destruct (update_session_spec c1) as (c3 & -> & Hdict & Hdd3 & Hkey3 & Hpers).
    exists c3. split; [done|]. split; [|by rewrite Hdd3, Hkey3, Hdd, Hkey].
    by eapply items_but_same.
Qed.

Lemma set_quantity_str_key p q c :
  0 ≤ q → p ∈ products c → item_at c (p_model p) (KInt (pk p)) = None →
  ∃ c', set_quantity p q c = (Raise KeyError, c')
        ∧ same_items c c' ∧ same_fields c c'.
Proof.
  intros Hq Hp%contains_true Hitem. unfold set_quantity.
  rewrite bool_decide_eq_false_2 by lia.
  unfold bind, get. rewrite Hp. simpl. unfold bind, get_product_model_path.
  destruct (item_getitem_None _ _ _ Hitem) as (c' & -> & ?). by exists c'.
Qed.

(** ** The invariant of the carts built from an empty cart *)

Lemma int_keyed_empty c : items c = [] → int_keyed c.
Proof.
  intros Hnil m k i Hi.
  assert (i ∈ items c) as Hin by (apply elem_of_items; eauto).
  rewrite Hnil in Hin. by apply not_elem_of_nil in Hin.
Qed.

Lemma int_keyed_same_items c c' : same_items c c' → int_keyed c → int_keyed c'.
Proof. intros Hsame Hinv m k i Hi. rewrite Hsame in Hi. by apply Hinv. Qed.

Lemma int_keyed_items_but c m k v c' :
  items_but c m k v c' → int_keyed c → (∀ i, v = Some i → entry_ok m k i) →
  int_keyed c'.
Proof.
  intros Hbut Hinv Hv m' k' i Hi. rewrite Hbut in Hi.
  case_decide as Hmk; [|by apply Hinv].
  destruct Hmk as [-> ->]. by apply Hv.
Qed.

Lemma int_keyed_present c p :
  int_keyed c → p ∈ products c →
  ∃ item, item_at c (p_model p) (KInt (pk p)) = Some item
          ∧ product item = p ∧ 1 ≤ quantity item.
Proof.
  intros Hinv (m & k & i & Hi & <-)%elem_of_products.
  destruct (Hinv _ _ _ Hi) as (-> & -> & ?). eauto.
Qed.

Lemma int_keyed_cart_wf c : int_keyed c → cart_wf c = true.
Proof.
  intros Hinv. apply cart_wf_intro. intros m k i Hi.
  destruct (Hinv _ _ _ Hi) as (-> & -> & _). split; [done|]. left. split; [done|].
  destruct (item_at c _ (KStr _)) as [j|] eqn:Hj; [|done].
  by destruct (Hinv _ _ _ Hj) as (_ & [=] & _).
Qed.

Lemma add_int_keyed p price_ q c : int_keyed c → int_keyed (add p price_ q c).2.
Proof.
  intros Hinv. destruct (decide (q < 1)) as [Hq|Hq].
  { by rewrite add_quantity_below_1. }
  destruct (decide (p ∈ products c)) as [Hp|Hp].
  - destruct (int_keyed_present _ _ Hinv Hp) as (item & Hitem & Hprod & Hpos).
    destruct (add_existing_product p price_ q c item) as (c' & -> & Hbut & _);
      [lia|done|done|].
    eapply int_keyed_items_but; [done|done|].
    intros i [= <-]. destruct (Hinv _ _ _ Hitem) as (? & ? & ?).
    repeat split; simpl; [done|done|lia].
  - destruct price_ as [v|]; [|by rewrite add_missing_price by (lia || done)].
    destruct (Decimal_of_str (py_str v)) as [d|] eqn:Hd;
      [|by rewrite add_malformed_price by (lia || done)].
    destruct (has_model c (p_model p)) eqn:Hmodel;
      [|by rewrite (add_new_product_plain_dict p v d) by (lia || done)].
    destruct (add_new_product p v d q c) as (c' & -> & Hbut & _); [lia|done..|].
    eapply int_keyed_items_but; [done|done|].
    intros i [= <-]. repeat split; simpl; lia.
Qed.

Lemma remove_int_keyed p c : int_keyed c → int_keyed (remove p c).2.
Proof.
  intros Hinv. destruct (decide (p ∈ products c)) as [Hp|Hp];
    [|by rewrite remove_absent].
  destruct (int_keyed_present _ _ Hinv Hp) as (item & Hitem & _).
  destruct (remove_present p c item) as (c' & -> & Hbut & _); [done..|].
  by eapply int_keyed_items_but.
Qed.

Lemma remove_single_int_keyed p c : int_keyed c → int_keyed (remove_single p c).2.
Proof.
  intros Hinv. destruct (decide (p ∈ products c)) as [Hp|Hp];
    [|by rewrite remove_single_absent].
  destruct (int_keyed_present _ _ Hinv Hp) as (item & Hitem & _).
  destruct (decide (quantity item ≤ 1)) as [Hq|Hq].
  - destruct (remove_single_last p c item) as (c' & -> & Hbut & _); [done..|].
    by eapply int_keyed_items_but.
  - destruct (remove_single_decrements p c item) as (c' & -> & Hbut & _);
      [done|done|lia|].
    eapply int_keyed_items_but; [done|done|].
    intros i [= <-]. destruct (Hinv _ _ _ Hitem) as (? & ? & ?).
    repeat split; simpl; [done|done|lia].
Qed.

Lemma clear_int_keyed c : int_keyed (clear c).2.
Proof. apply int_keyed_empty. reflexivity. Qed.

Lemma set_quantity_int_keyed p q c : int_keyed c → int_keyed (set_quantity p q c).2.
Proof.
  intros Hinv. destruct (decide (q < 0)) as [Hq|Hq].
  { by rewrite set_quantity_negative. }
  destruct (decide (p ∈ products c)) as [Hp|Hp];
    [|by rewrite set_quantity_absent by (lia || done)].
  destruct (int_keyed_present _ _ Hinv Hp) as (item & Hitem & _).
  destruct (set_quantity_present p q c item) as (c' & -> & Hbut & _); [lia|done..|].
  eapply int_keyed_items_but; [done|done|].
  intros i. case_bool_decide; [done|]. intros [= <-].
  destruct (Hinv _ _ _ Hitem) as (? & ? & ?).
  repeat split; simpl; [done|done|lia].
Qed.

Lemma reachable_int_keyed c : reachable c → int_keyed c.
Proof.
  induction 1 as [c Hnil|c op _ IH].
  - by apply int_keyed_empty.
  - destruct op; simpl.
    + by apply add_int_keyed.
    + by apply remove_int_keyed.
    + by apply remove_single_int_keyed.
    + apply clear_int_keyed.
    + by apply set_quantity_int_keyed.
Qed.

(** C8: in every cart obtained from an empty cart by calls of [add],
    [remove], [remove_single], [set_quantity] and [clear], whether they
    return or raise, every item has a quantity of at least 1 and no product
    (class and primary key) has two items. *)
Theorem reachable_invariant c :
  reachable c →
  (∀ i, i ∈ items c → 1 ≤ quantity i) ∧ NoDup (products c).
Proof.
  intros Hinv%reachable_int_keyed. split.
  - intros i (m & k & Hi)%elem_of_items. by destruct (Hinv _ _ _ Hi) as (_ & _ & ?).
  - by apply cart_wf_NoDup_products, int_keyed_cart_wf.
Qed.

(** ** The serialized cart *)

Lemma str_inj (a b : Z) : str a = str b → a = b.
Proof.
  intros H. assert (Some a = Some b) as [=]; [|done].
  by rewrite <-(int_str a), <-(int_str b), H.
Qed.

Lemma serialize_item_lookup (rep : CartRep) item m s :
  serialize_item rep item !! m ≫= (.!! s)
  = if decide (m = p_model (product item) ∧ s = str (pk (product item)))
    then Some (to_dict item) else rep !! m ≫= (.!! s).
Proof.
  unfold serialize_item, get_product_model_path. case_decide as Hms.
  - destruct Hms as [-> ->]. rewrite lookup_insert_eq. simpl. by rewrite lookup_insert_eq.
  - destruct (decide (m = p_model (product item))) as [->|Hne].
    + rewrite lookup_insert_eq. simpl. rewrite lookup_insert_ne by naive_solver.
      by destruct (rep !! p_model (product item)).
    + by rewrite lookup_insert_ne.
Qed.

Lemma serialized_lookup_1 (l : list CartItem) m s dct :
  foldl serialize_item ∅ l !! m ≫= (.!! s) = Some dct →
  ∃ i, i ∈ l ∧ p_model (product i) = m ∧ str (pk (product i)) = s ∧ dct = to_dict i.
Proof.
  induction l as [|x l IH] using rev_ind.
  - simpl. by rewrite lookup_empty.
  - rewrite foldl_snoc, serialize_item_lookup. case_decide as Hms.
    + destruct Hms as [-> ->]. intros [= <-]. exists x. by rewrite elem_of_app, list_elem_of_singleton; eauto.
    + intros (i & Hi & ?)%IH. exists i. rewrite elem_of_app. eauto.
Qed.

Lemma serialized_lookup_2 (l : list CartItem) i :
  (∀ i j, i ∈ l → j ∈ l → product i = product j → i = j) →
  i ∈ l →
  foldl serialize_item ∅ l !! p_model (product i) ≫= (.!! str (pk (product i)))
  = Some (to_dict i).
Proof.
  induction l as [|x l IH] using rev_ind; [by intros _ ?%not_elem_of_nil|].
  intros Hfun Hi. rewrite foldl_snoc, serialize_item_lookup. case_decide as Hms.
  - destruct Hms as [Hm Hs%str_inj]. f_equal. f_equal.
    apply Hfun; [rewrite elem_of_app, list_elem_of_singleton; auto|done|].
    destruct (product x), (product i); simpl in *; congruence.
  - apply elem_of_app in Hi as [Hi|Hi%list_elem_of_singleton]; [|naive_solver].
    apply IH; [|done]. intros ????. apply Hfun; rewrite elem_of_app; auto.
Qed.

Lemma NoDup_products_one_item c i j :
  NoDup (products c) → i ∈ items c → j ∈ items c → product i = product j → i = j.
Proof.
  unfold products. induction (items c) as [|x l IH]; [by intros _ ?%not_elem_of_nil|].
  rewrite fmap_cons, NoDup_cons, !elem_of_cons. intros [Hx Hl] [->|Hi] [->|Hj] Hp.
  - done.
  - destruct Hx. rewrite Hp. by apply list_elem_of_fmap_2.
  - destruct Hx. rewrite <-Hp. by apply list_elem_of_fmap_2.
  - by apply IH.
Qed.

(** ** Rebuilding a cart from the session *)

(** A loop whose turns all return establishes its invariant for the
    whole list. *)
Lemma for_invariant_from {A} (l0 : list A) (body : A → M unit)
    (I : list A → Cart → Prop) :
  (∀ done x c1, x ∈ l0 → I done c1 →
     ∃ c2, body x c1 = (Ok tt, c2) ∧ I (done ++ [x]) c2) →
  ∀ l done c1, (∀ x, x ∈ l → x ∈ l0) → I done c1 →
    ∃ c', for_ l body c1 = (Ok tt, c') ∧ I (done ++ l) c'.
Proof.
  intros Hstep. induction l as [|x l IH]; intros done c1 Hsub HI.
  - exists c1. by rewrite app_nil_r.
  - destruct (Hstep done x c1) as (c2 & Hbody & HI2); [apply Hsub; left|done|].
    destruct (IH (done ++ [x]) c2) as (c' & Hrest & HI'); [|done|].
    { intros y Hy. apply Hsub. by right. }
    exists c'. simpl. unfold bind at 1. rewrite Hbody.
    split; [done|]. by rewrite <-app_assoc in HI'.
Qed.

Lemma for_invariant {A} (l : list A) (body : A → M unit)
    (I : list A → Cart → Prop) c :
  I [] c →
  (∀ done x c1, x ∈ l → I done c1 →
     ∃ c2, body x c1 = (Ok tt, c2) ∧ I (done ++ [x]) c2) →
  ∃ c', for_ l body c = (Ok tt, c') ∧ I l c'.
Proof.
  intros Hinit Hstep.
  by apply (for_invariant_from l body I Hstep l [] c).
Qed.

(** The keys the cart wrote are read back as the primary keys. *)
Lemma mapM_int_str (keys : list string) :
  (∀ s, s ∈ keys → ∃ n, s = str n) →
  ∃ pks, mapM int keys = Some pks ∧ ∀ n, n ∈ pks ↔ str n ∈ keys.
Proof.
  induction keys as [|s keys IH]; intros Hkeys.
  - exists []. split; [done|]. intros n. by rewrite !elem_of_nil.
  - destruct IH as (pks & Hpks & Hin).
    { intros s' Hs'. apply Hkeys. by right. }
    destruct (Hkeys s) as [n ->]; [by left|].
    exists (n :: pks). split.
    + simpl. rewrite int_str. simpl. by rewrite Hpks.
    + intros n'. rewrite !elem_of_cons, Hin. split.
      * intros [->|?]; auto.
      * intros [?%str_inj|?]; auto.
Qed.

Lemma serialized_model (l : list CartItem) m inner :
  foldl serialize_item ∅ l !! m = Some inner →
  ∃ i, i ∈ l ∧ p_model (product i) = m.
Proof.
  induction l as [|x l IH] using rev_ind; [by simpl; rewrite lookup_empty|].
  rewrite foldl_snoc. unfold serialize_item at 1, get_product_model_path.
  destruct (decide (m = p_model (product x))) as [->|Hne].
  - intros _. exists x. by rewrite elem_of_app, list_elem_of_singleton; auto.
  - rewrite lookup_insert_ne by done. intros (i & ? & ?)%IH.
    exists i. rewrite elem_of_app. auto.
Qed.

(** [filter_products] keeps the rows of the table that pass the lookup. *)
Lemma elem_of_filter_products env (Model : list Product) p :
  p ∈ filter_products env Model ↔ p ∈ Model ∧ passes_lookup env p = true.
Proof.
  unfold filter_products, passes_lookup.
  destruct (CART_PRODUCT_LOOKUP env) as [lookup_parameters|]; [|tauto].
  by rewrite list_elem_of_In, filter_In, <-list_elem_of_In.
Qed.

Lemma available_spec env p :
  available env p = true
  ↔ ∃ Model, objects_all env (p_model p) = Some Model ∧ p ∈ filter_products env Model.
Proof.
  unfold available, in_store. rewrite andb_true_iff. split.
  - destruct (objects_all env (p_model p)) as [Model|]; [|by intros [? _]].
    intros [Hp%bool_decide_eq_true Hpass]. exists Model. split; [done|].
    by apply elem_of_filter_products.
  - intros (Model & -> & [Hp Hpass]%elem_of_filter_products). split; [|done].
    by apply bool_decide_eq_true_2.
Qed.

Section Roundtrip.
Variables (env : Environment) (c self0 : Cart).
Hypothesis Hone : ∀ i j, i ∈ items c → j ∈ items c → product i = product j → i = j.
Hypothesis Htyped : tables_typed env.
Hypothesis Himport : ∀ p, p ∈ products c → is_Some (objects_all env (p_model p)).
Hypothesis Hdefault : is_defaultdict self0 = true.

Local Abbreviation rebuilt := (rebuilt_from env c self0).
Local Abbreviation rebuilding := (rebuilding_from env c self0).

Lemma rebuild_product done m inner Model done_p p c1 :
  cart_serializable c !! m = Some inner →
  objects_all env m = Some Model →
  p ∈ filter_products env Model →
  is_Some (inner !! str (pk p)) →
  rebuilding done m done_p c1 →
  ∃ c2,
    match cart_serializable c !! m ≫= (.!! str (pk p)) with
    | None => raise KeyError
    | Some item =>
        match Decimal_of_str (dict_price item) with
        | None => raise InvalidOperation
        | Some d =>
            bind (lift (CartItem_init p (dict_quantity item) (PyDecimal d)))
                 (λ item', item_setitem m (KStr (str (pk p))) item')
        end
    end c1 = (Ok tt, c2)
    ∧ rebuilding done m (done_p ++ [p]) c2.
Proof.
  intros Hinner HModel Hp [dct Hdct] [Hfields Hitems].
  assert (p_model p = m) as Hpm.
  { eapply Htyped; [done|]. unfold filter_products in Hp.
    destruct (CART_PRODUCT_LOOKUP env); [|done].
    by apply list_elem_of_In, filter_In in Hp as [?%list_elem_of_In _]. }
  assert (available env p = true) as Havail.
  { apply available_spec. exists Model. by rewrite Hpm. }
  rewrite Hinner. simpl. rewrite Hdct.
  destruct (serialized_lookup_1 (items c) m (str (pk p)) dct)
    as (i & Hi & Him & Hipk%str_inj & ->).
  { unfold cart_serializable in Hinner. by rewrite Hinner. }
  assert (product i = p) as Hip.
  { destruct (product i), p; simpl in *; congruence. }
  simpl. rewrite Decimal_of_str_of_Decimal.
  unfold bind, lift, CartItem_init. simpl. rewrite Decimal_of_str_of_Decimal.
  assert ({| product := p; quantity := quantity i; price := price i |} = i) as ->.
  { rewrite <-Hip. by destruct i. }
  pose proof (item_setitem_spec m (KStr (str (pk p))) i c1) as Hset.
  assert (has_model c1 m = true) as Hhas.
  { unfold has_model. destruct Hfields as [-> _]. by rewrite Hdefault. }
  rewrite Hhas in Hset. destruct Hset as (c2 & -> & Hbut & Hfields2).
  exists c2. split; [done|]. split.
  { destruct Hfields as (? & ? & ?), Hfields2 as (? & ? & ?).
    repeat split; congruence. }
  assert (reloaded env c m (KStr (str (pk p))) i) as Hreloaded.
  { unfold reloaded. rewrite Hip. by rewrite Hpm. }
  intros m' k' j. rewrite Hbut. case_decide as Hmk; [|rewrite Hitems].
  - destruct Hmk as [-> ->]. split.
    + intros [= <-]. split; [|done]. right. split; [done|].
      rewrite Hip, elem_of_app, list_elem_of_singleton. auto.
    + intros [_ (Hk & Hm & Hj & _)]. f_equal. apply Hone; [done..|].
      injection Hk as Hk%str_inj.
      destruct (product i), (product j); simpl in *; congruence.
  - split.
    + intros [[?|[-> Hdone]] ?]; (split; [|done]); auto.
      right. split; [done|]. rewrite elem_of_app. auto.
    + intros [[?|[-> Hdone]] Hrel]; (split; [|done]); auto.
      apply elem_of_app in Hdone as [?|Hjp%list_elem_of_singleton]; auto.
      destruct Hmk. destruct Hrel as (-> & _). by rewrite Hjp.
Qed.

Lemma rebuild_model done m inner c1 :
  cart_serializable c !! m = Some inner →
  rebuilt done c1 →
  ∃ c2,
    bind (lift (get_product_model env m)) (λ Model,
      bind (lift (filter_pk__in (map_to_list inner).*1 (filter_products env Model)))
        (λ selected,
           for_ selected (λ p,
             match cart_serializable c !! m ≫= (.!! str (pk p)) with
             | None => raise KeyError
             | Some item =>
                 match Decimal_of_str (dict_price item) with
                 | None => raise InvalidOperation
                 | Some d =>
                     bind (lift (CartItem_init p (dict_quantity item) (PyDecimal d)))
                          (λ item', item_setitem m (KStr (str (pk p))) item')
                 end
             end))) c1 = (Ok tt, c2)
    ∧ rebuilt (done ++ [m]) c2.
Proof.
  intros Hinner [Hfields Hitems].
  destruct (serialized_model (items c) m inner Hinner) as (i0 & Hi0 & Hm0).
  destruct (Himport (product i0)) as [Model HModel].
  { by apply list_elem_of_fmap_2. }
  rewrite Hm0 in HModel.
  destruct (mapM_int_str (map_to_list inner).*1) as (pks & Hpks & Hin).
  { intros s ([s' dct] & -> & Hs%elem_of_map_to_list)%list_elem_of_fmap.
    destruct (serialized_lookup_1 (items c) m s' dct) as (i & _ & _ & <- & _).
    { unfold cart_serializable in Hinner. by rewrite Hinner. }
    eauto. }
  unfold bind at 1, lift at 1, get_product_model. rewrite HModel.
  unfold bind at 1, lift at 1, filter_pk__in. rewrite Hpks.
  set (selected := List.filter _ _).
  assert (∀ p, p ∈ selected ↔ p ∈ filter_products env Model ∧ is_Some (inner !! str (pk p)))
    as Hselected.
  { intros p. unfold selected. rewrite list_elem_of_In, filter_In, <-list_elem_of_In.
    rewrite bool_decide_eq_true, Hin, list_elem_of_fmap.
    split; intros [? Hkey]; (split; [done|]).
    - destruct Hkey as ([s dct] & -> & ?%elem_of_map_to_list). eauto.
    - destruct Hkey as [dct Hdct]. exists (str (pk p), dct).
      by rewrite elem_of_map_to_list. }
  destruct (for_invariant selected
    (λ p, match cart_serializable c !! m ≫= (.!! str (pk p)) with
          | None => raise KeyError
          | Some item =>
              match Decimal_of_str (dict_price item) with
              | None => raise InvalidOperation
              | Some d =>
                  bind (lift (CartItem_init p (dict_quantity item) (PyDecimal d)))
                       (λ item', item_setitem m (KStr (str (pk p))) item')
              end
          end)
    (rebuilding done m) c1) as (c2 & -> & Hfields2 & Hitems2).
  { split; [done|]. intros m' k i. rewrite Hitems, elem_of_nil. tauto. }
  { intros done_p p c1' [Hp Hkey]%Hselected Hinv.
    by apply (rebuild_product done m inner Model). }
  exists c2. split; [done|]. split; [done|].
  intros m' k i. rewrite Hitems2, elem_of_app, list_elem_of_singleton.
  split; [intros [[?|[-> _]] ?]; auto|].
  intros [[?| ->] Hrel]; (split; [|done]); auto.
  right. split; [done|].
  destruct Hrel as (_ & Hm & Hi & Havail). apply Hselected.
  apply available_spec in Havail as (Model' & HModel' & Havail).
  rewrite <-Hm, HModel in HModel'. injection HModel' as <-. split; [done|].
  pose proof (serialized_lookup_2 (items c) i Hone Hi) as Hlook.
  rewrite <-Hm in Hlook. unfold cart_serializable in Hinner. rewrite Hinner in Hlook.
  simpl in Hlook. eauto.
Qed.

Lemma rebuild_cart :
  _items_dict self0 = ∅ →
  ∃ c', rebuild env (cart_serializable c) self0 = (Ok tt, c')
        ∧ same_fields self0 c'
        ∧ ∀ m k i, item_at c' m k = Some i ↔ reloaded env c m k i.
Proof.
  intros Hempty. unfold rebuild.
  destruct (for_invariant (map_to_list (cart_serializable c))
    (λ '(model, items_),
       bind (lift (get_product_model env model)) (λ Model,
         bind (lift (filter_pk__in (map_to_list items_).*1 (filter_products env Model)))
           (λ selected,
              for_ selected (λ p,
                match cart_serializable c !! model ≫= (.!! str (pk p)) with
                | None => raise KeyError
                | Some item =>
                    match Decimal_of_str (dict_price item) with
                    | None => raise InvalidOperation
                    | Some d =>
                        bind (lift (CartItem_init p (dict_quantity item) (PyDecimal d)))
                             (λ item', item_setitem model (KStr (str (pk p))) item')
                    end
                end))))
    (λ done, rebuilt done.*1) self0) as (c' & Hrun & Hfields & Hitems).
  { split; [done|]. intros m k i. unfold item_at. rewrite Hempty, lookup_empty.
    simpl. rewrite elem_of_nil. split; [done|tauto]. }
  { intros done [m inner] c1 Hin%elem_of_map_to_list Hinv.
    rewrite fmap_app. simpl. by apply rebuild_model. }
  exists c'. split; [done|]. split; [done|].
  intros m k i. rewrite Hitems. split; [tauto|].
  intros Hrel. split; [|done].
  destruct Hrel as (_ & -> & Hi & _).
  pose proof (serialized_lookup_2 (items c) i Hone Hi) as Hlook.
  fold (cart_serializable c) in Hlook.
  destruct (cart_serializable c !! p_model (product i)) as [inner|] eqn:Hinner; [|done].
  apply list_elem_of_fmap. exists (p_model (product i), inner).
  by rewrite elem_of_map_to_list.
Qed.

End Roundtrip.

(** C1: let [c] be a cart in which no product has two items, whose
    classes can be imported, and let the session hold
    [cart_serializable] of [c] under the cart's key.  Then [Cart(session)]
    raises nothing and returns a cart whose items are exactly the items of
    [c], with their product, quantity and price, whose product is still a
    row of the table of its class and passes the configured lookup.  In
    particular a product of [c] that was removed from its table is not in
    the new cart.  The session is left as it was. *)
Theorem session_roundtrip env c sess sk :
  NoDup (products c) →
  tables_typed env →
  importable env c = true →
  s_data sess !! session_key_or_default env sk = Some (cart_serializable c) →
  ∃ c', Cart_init env sess sk = Ok c'
        ∧ (∀ i, i ∈ items c'
                ↔ i ∈ items c
                  ∧ in_store env (product i) = true
                  ∧ passes_lookup env (product i) = true)
        ∧ (∀ p, p ∈ products c → in_store env p = false → p ∉ products c')
        ∧ NoDup (products c')
        ∧ session c' = sess.
Proof.
  intros Hnodup Htyped Himport Hsess.
  set (self0 := {| _items_dict := ∅; is_defaultdict := true; session := sess;
                   session_key := session_key_or_default env sk |}).
  destruct (rebuild_cart env c self0) as (c' & Hrun & Hfields & Hitems).
  - intros i j. by apply NoDup_products_one_item.
  - done.
  - unfold importable in Himport. rewrite forallb_forall in Himport.
    intros p Hp%list_elem_of_In%Himport. by apply bool_decide_eq_true in Hp.
  - done.
  - done.
  - assert (∀ i, i ∈ items c'
                 ↔ i ∈ items c
                   ∧ in_store env (product i) = true
                   ∧ passes_lookup env (product i) = true) as Hiff.
    { intros i. rewrite elem_of_items. split.
      - intros (m & k & (_ & _ & ? & Havail)%Hitems).
        by apply andb_true_iff in Havail.
      - intros (Hi & Hstore & Hpass). eexists _, _. apply Hitems.
        repeat split; [done|]. unfold available. by rewrite Hstore, Hpass. }
    exists c'. unfold Cart_init. rewrite Hsess. fold self0. rewrite Hrun.
    split; [done|]. split; [done|]. split; [|split].
    + intros p _ Hstore (i & -> & (_ & Hin & _)%Hiff)%list_elem_of_fmap. congruence.
    + apply cart_wf_NoDup_products, cart_wf_intro. intros m k i Hi.
      pose proof Hi as (-> & -> & _)%Hitems. split; [done|]. right. split; [done|].
      destruct (item_at c' _ (KInt _)) as [j|] eqn:Hj; [|done].
      by apply Hitems in Hj as ([=] & _).
    + by destruct Hfields as (_ & -> & _).
Qed.

(** ** Every constructed cart is well formed *)

Lemma filed_same_items c c' : same_items c c' → filed_by_product c → filed_by_product c'.
Proof.
  intros Hsame Hwf m k i Hi. rewrite !Hsame in *. by apply Hwf.
Qed.

Lemma filed_delete c m k c' :
  items_but c m k None c' → filed_by_product c → filed_by_product c'.
Proof.
  intros Hbut Hwf m' k' j Hj. rewrite Hbut in Hj. case_decide; [done|].
  destruct (Hwf _ _ _ Hj) as [Hm Hk]. split; [done|].
  rewrite !Hbut. destruct Hk as [[? ?]|[? ?]]; [left|right]; (split; [done|]);
    by case_decide.
Qed.

Lemma filed_update c m k i i' c' :
  items_but c m k (Some i') c' → item_at c m k = Some i → product i' = product i →
  filed_by_product c → filed_by_product c'.
Proof.
  intros Hbut Hi Hprod Hwf.
  assert (∀ m' k'', item_at c m' k'' = None → item_at c' m' k'' = None) as Hnone.
  { intros m' k'' Hn. rewrite Hbut. case_decide as Hmk; [|done].
    destruct Hmk as [-> ->]. congruence. }
  intros m' k' j Hj. rewrite Hbut in Hj.
  case_decide as Hmk.
  - destruct Hmk as [-> ->]. injection Hj as <-. rewrite Hprod.
    destruct (Hwf _ _ _ Hi) as [Hm Hk]. split; [done|].
    destruct Hk as [[? ?]|[? ?]]; [left|right]; auto.
  - destruct (Hwf _ _ _ Hj) as [Hm Hk]. split; [done|].
    destruct Hk as [[? ?]|[? ?]]; [left|right]; auto.
Qed.

Lemma filed_insert c p i' c' :
  items_but c (p_model p) (KInt (pk p)) (Some i') c' → product i' = p →
  p ∉ products c → filed_by_product c → filed_by_product c'.
Proof.
  intros Hbut Hprod Hp Hwf.
  assert (∀ m k j, item_at c m k = Some j → product j ≠ p) as Hother.
  { intros m k j Hj <-. apply Hp, elem_of_products. eauto. }
  assert (item_at c (p_model p) (KStr (str (pk p))) = None) as Hstr.
  { destruct (item_at c _ (KStr _)) as [j|] eqn:Hj; [|done].
    destruct (Hother _ _ _ Hj). destruct (Hwf _ _ _ Hj) as [Hm [[[=] _]|[[= Hk%str_inj] _]]].
    destruct (product j), p; simpl in *; congruence. }
  intros m' k' j Hj. rewrite Hbut in Hj. case_decide as Hmk.
  - destruct Hmk as [-> ->]. injection Hj as <-. rewrite Hprod. split; [done|]. left.
    split; [done|]. rewrite Hbut. by rewrite decide_False by (by intros [_ [=]]).
  - destruct (Hwf _ _ _ Hj) as [Hm Hk]. split; [done|].
    rewrite !Hbut. destruct Hk as [[? ?]|[? ?]]; [left|right]; (split; [done|]).
    + by rewrite decide_False by (by intros [_ [=]]).
    + case_decide as Hslot; [|done]. destruct Hslot as [Hm' [= Hpk]].
      destruct (Hother _ _ _ Hj).
      destruct (product j), p; simpl in *; congruence.
Qed.

Lemma exec_filed op c : filed_by_product c → filed_by_product (exec op c).2.
Proof.
  intros Hwf. destruct op as [p price_ q|p|p| |p q]; simpl.
  - destruct (decide (q < 1)) as [Hq|Hq]; [by rewrite add_quantity_below_1|].
    destruct (decide (p ∈ products c)) as [Hp|Hp].
    + destruct (item_at c (p_model p) (KInt (pk p))) as [item|] eqn:Hitem.
      * destruct (add_existing_product p price_ q c item) as (c' & -> & Hbut & _);
          [lia|done|done|].
        by eapply filed_update.
      * destruct (add_existing_product_str_key p price_ q c) as (c' & -> & Hsame & _);
          [lia|done|done|].
        by eapply filed_same_items.
    + destruct price_ as [v|]; [|by rewrite add_missing_price by (lia || done)].
      destruct (Decimal_of_str (py_str v)) as [d|] eqn:Hd;
        [|by rewrite add_malformed_price by (lia || done)].
      destruct (has_model c (p_model p)) eqn:Hmodel;
        [|by rewrite (add_new_product_plain_dict p v d) by (lia || done)].
      destruct (add_new_product p v d q c) as (c' & -> & Hbut & _); [lia|done..|].
      by eapply filed_insert.
  - destruct (decide (p ∈ products c)) as [Hp|Hp]; [|by rewrite remove_absent].
    destruct (item_at c (p_model p) (KInt (pk p))) as [item|] eqn:Hitem.
    + destruct (remove_present p c item) as (c' & -> & Hbut & _); [done..|].
      by eapply filed_delete.
    + destruct (remove_present_str_key p c) as (c' & -> & Hsame & _); [done..|].
      by eapply filed_same_items.
  - destruct (decide (p ∈ products c)) as [Hp|Hp]; [|by rewrite remove_single_absent].
    destruct (item_at c (p_model p) (KInt (pk p))) as [item|] eqn:Hitem.
    + destruct (decide (quantity item ≤ 1)) as [Hq|Hq].
      * destruct (remove_single_last p c item) as (c' & -> & Hbut & _); [done..|].
        by eapply filed_delete.
      * destruct (remove_single_decrements p c item) as (c' & -> & Hbut & _);
          [done|done|lia|].
        by eapply filed_update.
    + destruct (remove_single_str_key p c) as (c' & -> & Hsame & _); [done..|].
      by eapply filed_same_items.
  - intros m k i Hi. done.
  - destruct (decide (q < 0)) as [Hq|Hq]; [by rewrite set_quantity_negative|].
    destruct (decide (p ∈ products c)) as [Hp|Hp];
      [|by rewrite set_quantity_absent by (lia || done)].
    destruct (item_at c (p_model p) (KInt (pk p))) as [item|] eqn:Hitem.
    + destruct (set_quantity_present p q c item) as (c' & -> & Hbut & _); [lia|done..|].
      destruct (bool_decide (q < 1)).
      * by eapply filed_delete.
      * by eapply filed_update.
    + destruct (set_quantity_str_key p q c) as (c' & -> & Hsame & _); [lia|done..|].
      by eapply filed_same_items.
Qed.

(** A property that every turn keeps, returning or raising, holds after
    the loop. *)
Lemma for_preserves {A} (l : list A) (body : A → M unit) (P : Cart → Prop) :
  (∀ x c1, x ∈ l → P c1 → P (body x c1).2) →
  ∀ c, P c → P (for_ l body c).2.
Proof.
  induction l as [|x l IH]; intros Hstep c HP; [done|].
  simpl. unfold bind at 1.
  pose proof (Hstep x c (list_elem_of_here _ _) HP) as HP1.
  destruct (body x c) as [[[]|e] c1]; [|done].
  apply IH; [|done]. intros y c2 Hy. apply Hstep. by right.
Qed.

Lemma str_keyed_items_but c m k i c' :
  items_but c m k (Some i) c' → m = p_model (product i) →
  k = KStr (str (pk (product i))) → str_keyed c → str_keyed c'.
Proof.
  intros Hbut Hm Hk Hinv m' k' j Hj. rewrite Hbut in Hj.
  case_decide as Hmk; [|by apply Hinv].
  destruct Hmk as [-> ->]. by injection Hj as <-.
Qed.

Lemma rebuild_str_keyed env rep c :
  tables_typed env → str_keyed c → str_keyed (rebuild env rep c).2.
Proof.
  intros Htyped Hinv. unfold rebuild.
  apply for_preserves; [|done]. clear c Hinv.
  intros [m inner] c _ Hinv.
  unfold bind at 1, lift at 1, get_product_model.
  destruct (objects_all env m) as [Model|] eqn:HModel; [|done].
  unfold bind at 1, lift at 1, filter_pk__in.
  destruct (mapM int (map_to_list inner).*1) as [pks|]; [|done].
  apply for_preserves; [|done]. clear c Hinv.
  intros p c Hp Hinv.
  assert (p_model p = m) as Hpm.
  { eapply Htyped; [done|].
    apply list_elem_of_In, filter_In in Hp as [Hp _]. apply list_elem_of_In.
    unfold filter_products in Hp. destruct (CART_PRODUCT_LOOKUP env); [|done].
    by apply filter_In in Hp as [? _]. }
  destruct (rep !! m ≫= (.!! str (pk p))) as [dct|]; [|done].
  destruct (Decimal_of_str (dict_price dct)) as [d|]; [|done].
  unfold bind, lift, CartItem_init.
  destruct (Decimal_of_str (py_str (PyDecimal d))) as [d'|]; [|done].
  pose proof (item_setitem_spec m (KStr (str (pk p)))
    {| product := p; quantity := dict_quantity dct; price := d' |} c) as Hset.
  destruct (has_model c m).
  - destruct Hset as (c' & -> & Hbut & _). by eapply str_keyed_items_but.
  - by rewrite Hset.
Qed.

(** Every cart that [__init__] returns files its items under the strings
    of the primary keys. *)
Lemma Cart_init_str_keyed env sess sk c :
  tables_typed env → Cart_init env sess sk = Ok c → str_keyed c.
Proof.
  intros Htyped. unfold Cart_init.
  set (self0 := {| _items_dict := ∅; is_defaultdict := true; session := sess;
                   session_key := session_key_or_default env sk |}).
  assert (str_keyed self0) as Hinv0.
  { intros m k i Hi. unfold item_at in Hi. simpl in Hi. by rewrite lookup_empty in Hi. }
  destruct (s_data sess !! _) as [rep|]; [|by intros [= <-]].
  pose proof (rebuild_str_keyed env rep self0 Htyped Hinv0) as Hinv.
  destruct (rebuild env rep self0) as [[[]|e] c']; [|done]. by intros [= <-].
Qed.

Lemma str_keyed_filed c : str_keyed c → filed_by_product c.
Proof.
  intros Hinv m k i Hi. destruct (Hinv _ _ _ Hi) as [-> ->]. split; [done|].
  right. split; [done|].
  destruct (item_at c _ (KInt _)) as [j|] eqn:Hj; [|done].
  by destruct (Hinv _ _ _ Hj) as [_ [=]].
Qed.

(** Every cart a caller obtains is well formed. *)
Lemma constructed_cart_wf env c :
  tables_typed env → constructed env c → cart_wf c = true.
Proof.
  intros Htyped Hc. apply cart_wf_filed.
  induction Hc as [sess sk c Hinit|c op _ IH].
  - by eapply str_keyed_filed, Cart_init_str_keyed.
  - by apply exec_filed.
Qed.

(** X17: on a cart that [__init__] returned, the calls that index with
    [product.pk] raise [KeyError] for every product of the cart. *)
Lemma reloaded_product_KeyError env sess sk c p q price_ :
  tables_typed env → Cart_init env sess sk = Ok c → p ∈ products c →
  (remove p c).1 = Raise KeyError
  ∧ (remove_single p c).1 = Raise KeyError
  ∧ (0 ≤ q → (set_quantity p q c).1 = Raise KeyError)
  ∧ (1 ≤ q → (add p price_ q c).1 = Raise KeyError).
Proof.
  intros Htyped Hinv%Cart_init_str_keyed Hp; [|done].
  assert (item_at c (p_model p) (KInt (pk p)) = None) as Hnone.
  { destruct (item_at c _ (KInt _)) as [j|] eqn:Hj; [|done].
    by destruct (Hinv _ _ _ Hj) as [_ [=]]. }
  repeat split.
  - by destruct (remove_present_str_key p c) as (c' & -> & _).
  - by destruct (remove_single_str_key p c) as (c' & -> & _).
  - intros Hq. by destruct (set_quantity_str_key p q c) as (c' & -> & _).
  - intros Hq. by destruct (add_existing_product_str_key p price_ q c) as (c' & -> & _).
Qed.

(** X18: after [clear()], [add] raises whatever its arguments are. *)
Lemma add_after_clear_raises c p price_ q :
  ∃ e, (add p price_ q (clear c).2).1 = Raise e.
Proof.
  assert (p ∉ products (clear c).2) as Hp by (simpl; apply not_elem_of_nil).
  destruct (decide (q < 1)) as [Hq|Hq]; [rewrite add_quantity_below_1; eauto|].
  destruct price_ as [v|]; [|rewrite add_missing_price by (lia || done); eauto].
  destruct (Decimal_of_str (py_str v)) as [d|] eqn:Hd;
    [|rewrite add_malformed_price by (lia || done); eauto].
  rewrite (add_new_product_plain_dict p v d) by (lia || done). eauto.
Qed.

(** X19: on a cart whose dictionary is the [defaultdict] of [__init__],
    two calls of [add] for a product that is not in the cart leave its item
    with the sum of the quantities and the price of the first call. *)
Lemma add_twice_aggregates c p v d price2 q1 q2 :
  1 ≤ q1 → 1 ≤ q2 → p ∉ products c → Decimal_of_str (py_str v) = Some d →
  has_model c (p_model p) = true →
  ∃ c1 c2, add p (Some v) q1 c = (Ok tt, c1)
           ∧ add p price2 q2 c1 = (Ok tt, c2)
           ∧ items_but c (p_model p) (KInt (pk p))
               (Some {| product := p; quantity := q1 + q2; price := d |}) c2
           ∧ persisted c2.
Proof.
  intros Hq1 Hq2 Hp Hd Hmodel.
  destruct (add_new_product p v d q1 c) as (c1 & Hadd1 & Hbut1 & _); [done..|].
  pose proof (items_but_at _ _ _ _ _ Hbut1) as Hitem.
  destruct (add_existing_product p price2 q2 c1
              {| product := p; quantity := q1; price := d |} Hq2)
    as (c2 & Hadd2 & Hbut2 & _ & _ & ?); [|done|].
  { apply elem_of_products. eauto. }
  exists c1, c2. split; [done|]. split; [done|]. split; [|done].
  by eapply items_but_trans.
Qed.

(** ** Derived views *)


Lemma quantities_Permutation (l1 l2 : list CartItem) :
  l1 ≡ₚ l2 → quantities l1 = quantities l2.
Proof. unfold quantities. induction 1; simpl; lia. Qed.

Lemma count_quantities c : count c = quantities (items c).
Proof.
  unfold count, sum_int, quantities. rewrite foldl_add_foldr.
  rewrite Z.add_0_l.
  induction (items c) as [|i l IH]; [done|].
  rewrite fmap_cons. simpl. by rewrite <-IH.
Qed.


(** ** clear *)

(** C9: from every cart, [clear()] returns and leaves a cart without
    items, on which [is_empty] is true; the session holds the serialized
    empty cart under the cart's key and is marked modified. *)
Theorem clear_empties_and_persists c :
  ∃ c', clear c = (Ok tt, c')
        ∧ items c' = [] ∧ is_empty c' = true
        ∧ cart_serializable c' = ∅
        ∧ session_key c' = session_key c
        ∧ s_data (session c') !! session_key c = Some (cart_serializable c')
        ∧ s_modified (session c') = true.
Proof.
  eexists. split; [reflexivity|]. simpl.
  repeat split; try done.
  apply lookup_insert_eq.
Qed.

(** ** Calls on a product that is not in the cart *)

(** C10: for a product that is not in the cart, [remove_single] and
    [set_quantity] with a quantity of at least 0 return and leave the
    cart object, session included, exactly as it was; [set_quantity] with
    a negative quantity raises [ValueError], the product being absent or
    not, and leaves the cart as it was. *)
Theorem absent_product_noop c p q :
  p ∉ products c →
  remove_single p c = (Ok tt, c)
  ∧ (0 ≤ q → set_quantity p q c = (Ok tt, c))
  ∧ (q < 0 → ∀ p',
       set_quantity p' q c
       = (Raise (ValueError "Quantity must be positive when updating cart"), c)).
Proof.
  intros Hp%contains_false. repeat split.
  - unfold remove_single, bind, get. by rewrite Hp.
  - intros Hq. unfold set_quantity. rewrite bool_decide_eq_false_2 by lia.
    unfold bind, get. by rewrite Hp.
  - intros Hq p'. unfold set_quantity. by rewrite bool_decide_eq_true_2 by lia.
Qed.

End Properties.

(** * How the calls compose *)

Section Composition.
Context `{DM : DecimalModule}.

Implicit Types (self c : Cart) (p : Product) (i item : CartItem) (k : key)
  (model m : string) (v : option CartItem).

(** ** The items after a change of one entry *)

Lemma items_keyed_but c m k v c' :
  items_but c m k v c' →
  items_keyed c'
  ≡ₚ match v with Some i => [(m, k, i)] | None => [] end
     ++ filter (λ e, e.1 ≠ (m, k)) (items_keyed c).
Proof.
  intros Hbut. apply NoDup_Permutation.
  - apply NoDup_items_keyed.
  - apply NoDup_app. split; [destruct v; [apply NoDup_singleton|apply NoDup_nil_2]|].
    split; [|apply NoDup_filter, NoDup_items_keyed].
    intros e He [Hne _]%list_elem_of_filter. destruct v; [|by apply not_elem_of_nil in He].
    apply list_elem_of_singleton in He as ->. by destruct Hne.
  - intros [[m' k'] i]. rewrite elem_of_items_keyed, Hbut, elem_of_app, list_elem_of_filter.
    rewrite elem_of_items_keyed. simpl. case_decide as Hmk.
    + destruct Hmk as [-> ->]. split.
      * intros ->. left. by apply list_elem_of_singleton.
      * intros [He|[Hne _]]; [|by destruct Hne].
        destruct v; [|by apply not_elem_of_nil in He].
        by apply list_elem_of_singleton in He as [= ->].
    + split.
      * intros Hi. right. split; [|done]. intros [= -> ->]. by destruct Hmk.
      * intros [He|[_ ?]]; [|done].
        destruct v; [|by apply not_elem_of_nil in He].
        apply list_elem_of_singleton in He as [= -> -> ->]. by destruct Hmk.
Qed.

Lemma items_but_refl c m k : items_but c m k (item_at c m k) c.
Proof. intros m' k'. case_decide as Hmk; [|done]. by destruct Hmk as [-> ->]. Qed.

Lemma quantities_app (l1 l2 : list CartItem) :
  quantities (l1 ++ l2) = quantities l1 + quantities l2.
Proof. unfold quantities. induction l1 as [|i l1 IH]; simpl; lia. Qed.

Lemma items_Permutation_but c m k v c' :
  items_but c m k v c' →
  items c' ≡ₚ match v with Some i => [i] | None => [] end
              ++ (snd <$> filter (λ e, e.1 ≠ (m, k)) (items_keyed c)).
Proof.
  intros Hbut. rewrite items_items_keyed, (items_keyed_but _ _ _ _ _ Hbut), fmap_app.
  by destruct v.
Qed.

(** One entry changes [count] by the difference of its quantities. *)
Lemma count_items_but c m k v c' :
  items_but c m k v c' →
  count c' = count c - quantity_of (item_at c m k) + quantity_of v.
Proof.
  intros Hbut. rewrite !count_quantities.
  rewrite (quantities_Permutation _ _ (items_Permutation_but _ _ _ _ _ Hbut)).
  rewrite (quantities_Permutation _ _ (items_Permutation_but _ _ _ _ _ (items_but_refl c m k))).
  rewrite !quantities_app.
  assert (∀ o, quantities match o with Some i => [i] | None => [] end = quantity_of o)
    as Hq by (intros [i|]; unfold quantities, quantity_of; simpl; lia).
  rewrite !Hq. lia.
Qed.

Lemma unique_count_items_but c m k v c' :
  items_but c m k v c' →
  (unique_count c' + entries_of (item_at c m k) = unique_count c + entries_of v)%nat.
Proof.
  intros Hbut. unfold unique_count. fold (items c) (items c').
  rewrite (Permutation_length (items_Permutation_but _ _ _ _ _ Hbut)).
  rewrite (Permutation_length (items_Permutation_but _ _ _ _ _ (items_but_refl c m k))).
  rewrite !length_app.
  assert (∀ o, length match o with Some i => [i] | None => [] end = entries_of o)
    as Hn by (by intros [i|]).
  rewrite !Hn. lia.
Qed.

Lemma same_items_Permutation c c' : same_items c c' → items c' ≡ₚ items c.
Proof.
  intros Hsame. rewrite !items_items_keyed. apply fmap_Permutation.
  apply NoDup_Permutation; [apply NoDup_items_keyed..|].
  intros [[m k] i]. by rewrite !elem_of_items_keyed, Hsame.
Qed.

Lemma not_in_products_None c p k : p ∉ products c → ∀ m i, item_at c m k = Some i → product i ≠ p.
Proof. intros Hp m i Hi <-. apply Hp, elem_of_products. eauto. Qed.

(** ** The entry of a product in a well-formed cart *)

Lemma wf_slot_item c p item :
  cart_wf c = true → item_at c (p_model p) (KInt (pk p)) = Some item → product item = p.
Proof.
  intros Hwf Hitem. destruct (cart_wf_entry _ _ _ _ Hwf Hitem) as [Hm [[[= Hk] _]|[[=] _]]].
  destruct (product item), p; simpl in *; congruence.
Qed.

Lemma wf_slot_absent c p :
  cart_wf c = true → p ∉ products c → item_at c (p_model p) (KInt (pk p)) = None.
Proof.
  intros Hwf Hp. destruct (item_at c _ _) as [item|] eqn:Hitem; [|done].
  destruct Hp. apply elem_of_products.
  exists (p_model p), (KInt (pk p)), item. split; [done|]. by eapply wf_slot_item.
Qed.

(** The entries of the cart besides the one of [p]. *)
Lemma wf_rest c p :
  cart_wf c = true →
  p ∉ products c ∨ is_Some (item_at c (p_model p) (KInt (pk p))) →
  ∀ e, e ∈ filter (λ e, e.1 ≠ (p_model p, KInt (pk p))) (items_keyed c) →
       product e.2 ≠ p.
Proof.
  intros Hwf Hslot [[m k] i] [Hne Hi%elem_of_items_keyed]%list_elem_of_filter Hprod.
  simpl in *. destruct Hslot as [Hp|[item Hitem]].
  - apply Hp, elem_of_products. eauto.
  - pose proof (wf_slot_item _ _ _ Hwf Hitem) as Hitemp.
    destruct (cart_wf_same_entry _ _ _ _ _ _ _ Hwf Hi Hitem) as (-> & -> & _);
      [congruence|done].
Qed.

Lemma filter_product_nil (l : list CartItem) p :
  (∀ i, i ∈ l → product i ≠ p) → filter (λ i, product i = p) l = [].
Proof.
  induction l as [|i l IH]; intros Hl; [done|].
  rewrite filter_cons, decide_False by (apply Hl; left).
  apply IH. intros j Hj. apply Hl. by right.
Qed.

(** After a change of the entry of [p]: what the cart holds of [p], and
    the other items. *)
Lemma quantity_in_but c p v c' :
  cart_wf c = true →
  p ∉ products c ∨ is_Some (item_at c (p_model p) (KInt (pk p))) →
  items_but c (p_model p) (KInt (pk p)) v c' →
  (∀ i, v = Some i → product i = p) →
  quantity_in c' p = quantity_of v
  ∧ (∀ i, i ∈ items c' ↔ v = Some i ∨ i ∈ items c ∧ product i ≠ p).
Proof.
  intros Hwf Hslot Hbut Hv.
  pose proof (wf_rest c p Hwf Hslot) as Hrest.
  pose proof (items_Permutation_but _ _ _ _ _ Hbut) as Hperm. split.
  - unfold quantity_in.
    assert (filter (λ i, product i = p) (items c')
            ≡ₚ filter (λ i, product i = p)
                 (match v with Some i => [i] | None => [] end
                  ++ (snd <$> filter (λ e, e.1 ≠ (p_model p, KInt (pk p)))
                                     (items_keyed c)))) as Hfilter
      by (by rewrite Hperm).
    rewrite (quantities_Permutation _ _ Hfilter), filter_app, quantities_app.
    rewrite (filter_product_nil (snd <$> _)).
    + destruct v as [i|]; [|done]. rewrite filter_cons, decide_True by auto.
      unfold quantities, quantity_of. simpl. lia.
    + intros i ([[m k] j] & -> & Hj)%list_elem_of_fmap. by apply Hrest in Hj.
  - intros i. rewrite Hperm, elem_of_app, list_elem_of_fmap.
    assert (i ∈ match v with Some i => [i] | None => [] end ↔ v = Some i) as ->.
    { destruct v; [rewrite list_elem_of_singleton; naive_solver|].
      split; [by intros ?%not_elem_of_nil|done]. }
    apply or_iff_compat_l. split.
    + intros ([[m k] j] & -> & Hj). split; [|by apply Hrest in Hj].
      apply list_elem_of_filter in Hj as [_ Hj%elem_of_items_keyed].
      apply elem_of_items. eauto.
    + intros [(m & k & Hi)%elem_of_items Hprod]. exists (m, k, i). split; [done|].
      apply list_elem_of_filter. split; [|by apply elem_of_items_keyed].
      simpl. intros [= -> ->]. by apply Hprod, (wf_slot_item c).
Qed.

Lemma quantity_in_slot c p :
  cart_wf c = true →
  p ∉ products c ∨ is_Some (item_at c (p_model p) (KInt (pk p))) →
  quantity_in c p = quantity_of (item_at c (p_model p) (KInt (pk p))).
Proof.
  intros Hwf Hslot.
  apply (quantity_in_but c p _ c Hwf Hslot (items_but_refl _ _ _)).
  intros i Hi. by eapply wf_slot_item.
Qed.

Lemma quantity_in_absent c p : p ∉ products c → quantity_in c p = 0.
Proof.
  intros Hp. unfold quantity_in. rewrite filter_product_nil; [done|].
  intros i Hi <-. by apply Hp, list_elem_of_fmap_2.
Qed.

(** A change of the entry of [p] in a well-formed cart. *)
Lemma slot_change c p v c' :
  cart_wf c = true →
  p ∉ products c ∨ is_Some (item_at c (p_model p) (KInt (pk p))) →
  items_but c (p_model p) (KInt (pk p)) v c' →
  (∀ i, v = Some i → product i = p) →
  quantity_in c' p = quantity_of v
  ∧ count c' = count c - quantity_in c p + quantity_in c' p
  ∧ (∀ i, product i ≠ p → i ∈ items c' ↔ i ∈ items c)
  ∧ (unique_count c' + entries_of (item_at c (p_model p) (KInt (pk p)))
     = unique_count c + entries_of v)%nat
  ∧ contains c' p = bool_decide (is_Some v).
Proof.
  intros Hwf Hslot Hbut Hv.
  destruct (quantity_in_but c p v c' Hwf Hslot Hbut Hv) as [Hq Hitems].
  split; [done|]. split; [|split; [|split]].
  - rewrite Hq, (quantity_in_slot c p Hwf Hslot). by apply count_items_but.
  - intros i Hi. rewrite Hitems. split; [|tauto].
    intros [Hvi|[? _]]; [|done]. by destruct Hi; apply Hv.
  - by apply unique_count_items_but.
  - unfold contains. apply bool_decide_ext. unfold products.
    rewrite list_elem_of_fmap. split.
    + intros (i & Hp & [Hvi|[_ Hne]]%Hitems); [by rewrite Hvi|done].
    + intros [i ->]. exists i. split; [symmetry; by apply Hv|]. apply Hitems. by left.
Qed.

(** ** The calls that return, on a well-formed cart *)

(** X1: on a well-formed cart, a call of [add] that returns raises what
    the cart holds of the product, and [count], by the quantity added; it
    adds one item if the product was not in the cart and none otherwise; it
    leaves the items of the other products alone; the product is in the
    cart afterwards and the cart is persisted. *)
Theorem add_returns c p price_ q :
  cart_wf c = true →
  (add p price_ q c).1 = Ok tt →
  quantity_in (add p price_ q c).2 p = quantity_in c p + q
  ∧ count (add p price_ q c).2 = count c + q
  ∧ unique_count (add p price_ q c).2
    = (if contains c p then unique_count c else S (unique_count c))
  ∧ (∀ i, product i ≠ p → i ∈ items (add p price_ q c).2 ↔ i ∈ items c)
  ∧ contains (add p price_ q c).2 p = true
  ∧ persisted (add p price_ q c).2.
Proof.
  intros Hwf Hret.
  destruct (decide (q < 1)) as [Hq|Hq].
  { by rewrite add_quantity_below_1 in Hret. }
  destruct (decide (p ∈ products c)) as [Hp|Hp].
  - destruct (item_at c (p_model p) (KInt (pk p))) as [item|] eqn:Hitem.
    + destruct (add_existing_product p price_ q c item) as (c' & Heq & Hbut & _ & _ & Hpers);
        [lia|done|done|].
      rewrite Heq in *. simpl.
      assert (p ∉ products c ∨ is_Some (item_at c (p_model p) (KInt (pk p)))) as Hslot
        by (rewrite Hitem; eauto).
      assert (∀ i, Some (with_quantity item (quantity item + q)) = Some i → product i = p)
        as Hv by (intros i [= <-]; simpl; by eapply wf_slot_item).
      destruct (slot_change c p _ c' Hwf Hslot Hbut Hv)
        as (Hqin & Hcount & Hframe & Hunique & Hcontains).
      rewrite Hitem in Hunique. simpl in Hunique.
      rewrite (quantity_in_slot c p Hwf), Hitem in * by (rewrite Hitem; eauto).
      rewrite (contains_true _ _ Hp).
      unfold quantity_of in *. simpl in *.
      split; [lia|]. split; [lia|]. split; [lia|]. by split.
    + destruct (add_existing_product_str_key p price_ q c) as (c' & Heq & _);
        [lia|done|done|]. by rewrite Heq in Hret.
  - destruct price_ as [v|]; [|by rewrite add_missing_price in Hret by (lia || done)].
    destruct (Decimal_of_str (py_str v)) as [d|] eqn:Hd;
      [|by rewrite add_malformed_price in Hret by (lia || done)].
    destruct (has_model c (p_model p)) eqn:Hmodel;
      [|by rewrite (add_new_product_plain_dict p v d) in Hret by (lia || done)].
    destruct (add_new_product p v d q c) as (c' & Heq & Hbut & _ & _ & Hpers); [lia|done..|].
    rewrite Heq in *. simpl.
    assert (∀ i, Some {| product := p; quantity := q; price := d |} = Some i
                 → product i = p) as Hv by (by intros i [= <-]).
    destruct (slot_change c p _ c' Hwf (or_introl Hp) Hbut Hv)
      as (Hqin & Hcount & Hframe & Hunique & Hcontains).
    rewrite (wf_slot_absent c p Hwf Hp) in Hunique. simpl in Hunique.
    rewrite (quantity_in_absent c p Hp) in *.
    rewrite (contains_false _ _ Hp).
    unfold quantity_of in *. simpl in *.
    split; [lia|]. split; [lia|]. split; [lia|]. by split.
Qed.

(** X2: on a well-formed cart, a call of [remove] that returns leaves
    nothing of the product in the cart, lowers [count] by what the cart
    held of it, leaves the items of the other products alone, and persists
    the cart if the product was in it. *)
Theorem remove_returns c p :
  cart_wf c = true →
  (remove p c).1 = Ok tt →
  quantity_in (remove p c).2 p = 0
  ∧ contains (remove p c).2 p = false
  ∧ count (remove p c).2 = count c - quantity_in c p
  ∧ unique_count c
    = (if contains c p then S (unique_count (remove p c).2)
       else unique_count (remove p c).2)
  ∧ (∀ i, product i ≠ p → i ∈ items (remove p c).2 ↔ i ∈ items c)
  ∧ (contains c p = true → persisted (remove p c).2).
Proof.
  intros Hwf Hret. destruct (decide (p ∈ products c)) as [Hp|Hp].
  - destruct (item_at c (p_model p) (KInt (pk p))) as [item|] eqn:Hitem.
    + destruct (remove_present p c item) as (c' & Heq & Hbut & _ & _ & Hpers); [done..|].
      rewrite Heq in *. simpl.
      assert (p ∉ products c ∨ is_Some (item_at c (p_model p) (KInt (pk p)))) as Hslot
        by (rewrite Hitem; eauto).
      assert (∀ i, None = Some i → product i = p) as Hv by done.
      destruct (slot_change c p _ c' Hwf Hslot Hbut Hv)
        as (Hqin & Hcount & Hframe & Hunique & Hcontains).
      rewrite Hitem in Hunique. simpl in Hunique.
      rewrite (contains_true _ _ Hp), Hcontains.
      unfold quantity_of in *. simpl in *.
      split; [done|]. split; [done|].
      split; [lia|]. split; [lia|]. by split.
    + destruct (remove_present_str_key p c) as (c' & Heq & _); [done..|].
      by rewrite Heq in Hret.
  - rewrite (remove_absent p c Hp). simpl.
    rewrite (contains_false _ _ Hp), (quantity_in_absent c p Hp).
    split; [done|]. split; [done|]. split; [lia|]. by split.
Qed.

(** X3: on a well-formed cart, a call of [remove_single] that returns
    leaves one less of the product, or nothing of it if the cart held at
    most one; [count] moves by the same amount and the items of the other
    products stay. *)
Theorem remove_single_returns c p :
  cart_wf c = true →
  (remove_single p c).1 = Ok tt →
  quantity_in (remove_single p c).2 p
  = (if bool_decide (quantity_in c p ≤ 1) then 0 else quantity_in c p - 1)
  ∧ contains (remove_single p c).2 p
    = contains c p && bool_decide (1 < quantity_in c p)
  ∧ count (remove_single p c).2
    = count c - quantity_in c p + quantity_in (remove_single p c).2 p
  ∧ (∀ i, product i ≠ p → i ∈ items (remove_single p c).2 ↔ i ∈ items c)
  ∧ (contains c p = true → persisted (remove_single p c).2).
Proof.
  intros Hwf Hret. destruct (decide (p ∈ products c)) as [Hp|Hp].
  - destruct (item_at c (p_model p) (KInt (pk p))) as [item|] eqn:Hitem.
    + assert (p ∉ products c ∨ is_Some (item_at c (p_model p) (KInt (pk p)))) as Hslot
        by (rewrite Hitem; eauto).
      rewrite (contains_true _ _ Hp), (quantity_in_slot c p Hwf Hslot), Hitem.
      unfold quantity_of at 1 2 3 4. simpl.
      destruct (decide (quantity item ≤ 1)) as [Hq|Hq].
      * destruct (remove_single_last p c item) as (c' & Heq & Hbut & _ & _ & Hpers);
          [done..|].
        rewrite Heq in *. simpl.
        assert (∀ i, None = Some i → product i = p) as Hv by done.
        destruct (slot_change c p _ c' Hwf Hslot Hbut Hv)
          as (Hqin & Hcount & Hframe & _ & Hcontains).
        rewrite (quantity_in_slot c p Hwf Hslot), Hitem in Hcount.
        rewrite Hcontains, Hqin. unfold quantity_of in *. simpl in *.
        rewrite bool_decide_eq_true_2 by done.
        rewrite (bool_decide_eq_false_2 (1 < _)) by lia.
        split; [done|]. split; [done|].
        split; [lia|]. by split.
      * destruct (remove_single_decrements p c item) as (c' & Heq & Hbut & _ & _ & Hpers);
          [done|done|lia|].
        rewrite Heq in *. simpl.
        assert (∀ i, Some (with_quantity item (quantity item - 1)) = Some i
                     → product i = p) as Hv
          by (intros i [= <-]; simpl; by eapply wf_slot_item).
        destruct (slot_change c p _ c' Hwf Hslot Hbut Hv)
          as (Hqin & Hcount & Hframe & _ & Hcontains).
        rewrite (quantity_in_slot c p Hwf Hslot), Hitem in Hcount.
        rewrite Hcontains, Hqin. unfold quantity_of in *. simpl in *.
        rewrite bool_decide_eq_false_2 by done.
        rewrite (bool_decide_eq_true_2 (1 < _)) by lia.
        split; [done|]. split; [done|].
        split; [lia|]. by split.
    + destruct (remove_single_str_key p c) as (c' & Heq & _); [done..|].
      by rewrite Heq in Hret.
  - rewrite (remove_single_absent p c Hp). simpl.
    rewrite (contains_false _ _ Hp), (quantity_in_absent c p Hp). simpl.
    split; [done|]. split; [done|]. split; [lia|]. by split.
Qed.

(** X4: on a well-formed cart that contains the product, a call of
    [set_quantity] that returns was given a quantity of at least 0 and
    leaves exactly that quantity of the product (no item for 0); [count]
    moves by the same amount, the items of the other products stay, and
    the cart is persisted. *)
Theorem set_quantity_returns c p q :
  cart_wf c = true →
  contains c p = true →
  (set_quantity p q c).1 = Ok tt →
  0 ≤ q
  ∧ quantity_in (set_quantity p q c).2 p = q
  ∧ contains (set_quantity p q c).2 p = bool_decide (1 ≤ q)
  ∧ count (set_quantity p q c).2 = count c - quantity_in c p + q
  ∧ (∀ i, product i ≠ p → i ∈ items (set_quantity p q c).2 ↔ i ∈ items c)
  ∧ persisted (set_quantity p q c).2.
Proof.
  intros Hwf Hp%bool_decide_eq_true Hret.
  destruct (decide (q < 0)) as [Hq|Hq].
  { by rewrite set_quantity_negative in Hret. }
  split; [lia|].
  destruct (item_at c (p_model p) (KInt (pk p))) as [item|] eqn:Hitem.
  - assert (p ∉ products c ∨ is_Some (item_at c (p_model p) (KInt (pk p)))) as Hslot
      by (rewrite Hitem; eauto).
    destruct (set_quantity_present p q c item) as (c' & Heq & Hbut & _ & _ & Hpers);
      [lia|done..|].
    rewrite Heq in *. simpl.
    assert (∀ i, (if bool_decide (q < 1) then None else Some (with_quantity item q))
                 = Some i → product i = p) as Hv.
    { intros i. case_bool_decide; [done|]. intros [= <-]. simpl. by eapply wf_slot_item. }
    destruct (slot_change c p _ c' Hwf Hslot Hbut Hv)
      as (Hqin & Hcount & Hframe & _ & Hcontains).
    rewrite Hcontains, Hcount, Hqin. clear Hbut Hv Hqin Hcontains.
    destruct (bool_decide_reflect (q < 1)) as [Hq1|Hq1]; unfold quantity_of; simpl.
    + split; [lia|]. split.
      { by rewrite bool_decide_eq_false_2 by lia. }
      split; [lia|]. by split.
    + split; [done|]. split.
      { by rewrite (bool_decide_eq_true_2 (1 ≤ q)) by lia. }
      by split.
  - destruct (set_quantity_str_key p q c) as (c' & Heq & _); [lia|done..|].
    by rewrite Heq in Hret.
Qed.

(** ** What [__init__] does to the session, and when it raises *)

Lemma same_fields_trans c1 c2 c3 :
  same_fields c1 c2 → same_fields c2 c3 → same_fields c1 c3.
Proof. intros (? & ? & ?) (? & ? & ?). repeat split; congruence. Qed.

Lemma rebuild_same_fields env rep c : same_fields c (rebuild env rep c).2.
Proof.
  unfold rebuild.
  apply (for_preserves _ _ (same_fields c)); [|done].
  intros [m inner] c1 _ Hc1.
  unfold bind at 1, lift at 1, get_product_model.
  destruct (objects_all env m) as [Model|]; [|done].
  unfold bind at 1, lift at 1, filter_pk__in.
  destruct (mapM int (map_to_list inner).*1) as [pks|]; [|done].
  apply (for_preserves _ _ (same_fields c)); [|done].
  intros p c2 _ Hc2.
  destruct (rep !! m ≫= (.!! str (pk p))) as [dct|]; [|done].
  destruct (Decimal_of_str (dict_price dct)) as [d|]; [|done].
  unfold bind, lift, CartItem_init.
  destruct (Decimal_of_str (py_str (PyDecimal d))) as [d'|]; [|done].
  pose proof (item_setitem_spec m (KStr (str (pk p)))
    {| product := p; quantity := dict_quantity dct; price := d' |} c2) as Hset.
  destruct (has_model c2 m).
  - destruct Hset as (c' & -> & _ & Hfields). by eapply same_fields_trans.
  - by rewrite Hset.
Qed.

(** X5: [Cart(session)] never writes the session: the cart it returns
    holds the session as it was given, under the given key or, for no key
    or an empty one, the configured key; its dictionary is the
    [defaultdict], and every item is filed under the class path of its
    product and the string of its primary key. *)
Theorem Cart_init_returns env sess sk c :
  tables_typed env →
  Cart_init env sess sk = Ok c →
  session c = sess
  ∧ session_key c
    = match sk with
      | Some k => if bool_decide (k = "") then CART_SESSION_KEY env else k
      | None => CART_SESSION_KEY env
      end
  ∧ is_defaultdict c = true
  ∧ (s_data sess !! session_key c = None → items c = [])
  ∧ ∀ m k i, item_at c m k = Some i →
             m = p_model (product i) ∧ k = KStr (str (pk (product i))).
Proof.
  intros Htyped Hinit.
  pose proof (Cart_init_str_keyed env sess sk c Htyped Hinit) as Hkeys.
  revert Hinit. unfold Cart_init.
  set (self0 := {| _items_dict := ∅; is_defaultdict := true; session := sess;
                   session_key := session_key_or_default env sk |}).
  destruct (s_data sess !! session_key_or_default env sk) as [rep|] eqn:Hrep.
  - pose proof (rebuild_same_fields env rep self0) as (Hdd & Hsess & Hkey).
    destruct (rebuild env rep self0) as [[[]|e] c']; [|done]. intros [= <-].
    simpl in *. rewrite Hkey.
    split; [done|]. split; [done|]. split; [done|]. split; [|done].
    intros Hnone. congruence.
  - intros [= <-]. simpl.
    split; [done|]. split; [done|]. split; [done|]. by split.
Qed.

(** A loop raises if one of its turns raises in every state. *)
Lemma for_raises {A} (l : list A) (body : A → M unit) x :
  x ∈ l → (∀ c, is_Ok (body x c).1 = false) → ∀ c, is_Ok (for_ l body c).1 = false.
Proof.
  intros Hx Hbody. induction l as [|y l IH]; intros c; [by apply not_elem_of_nil in Hx|].
  simpl. unfold bind at 1.
  apply elem_of_cons in Hx as [<-|Hx].
  - specialize (Hbody c). by destruct (body x c) as [[[]|e] c1].
  - destruct (body y c) as [[[]|e] c1]; [by apply IH|done].
Qed.

(** X6: [Cart(session)] raises, and builds no cart, if the stored
    representation names a class that cannot be imported (even with no
    item under it) or holds a key for which [int] raises [ValueError]. *)
Theorem Cart_init_raises env sess sk rep m inner :
  s_data sess !! session_key_or_default env sk = Some rep →
  rep !! m = Some inner →
  objects_all env m = None ∨ (∃ s, is_Some (inner !! s) ∧ int s = None) →
  is_Ok (Cart_init env sess sk) = false.
Proof.
  intros Hrep Hinner Hbad. unfold Cart_init. rewrite Hrep.
  set (self0 := {| _items_dict := ∅; is_defaultdict := true; session := sess;
                   session_key := session_key_or_default env sk |}).
  assert (is_Ok (rebuild env rep self0).1 = false) as Hraise.
  { unfold rebuild. apply (for_raises _ _ (m, inner)).
    { by apply elem_of_map_to_list. }
    intros c. unfold bind at 1, lift at 1, get_product_model.
    destruct (objects_all env m) as [Model|]; [|done].
    destruct Hbad as [[=]|(s & [dct Hs] & Hint)].
    unfold bind at 1, lift at 1, filter_pk__in.
    rewrite (mapM_None_2 int); [done|].
    apply Exists_exists. exists s. split; [|done].
    apply list_elem_of_fmap. exists (s, dct). by rewrite elem_of_map_to_list. }
  by destruct (rebuild env rep self0) as [[[]|e] c'].
Qed.

(** ** A call that raises changes nothing *)

Lemma clear_spec_persisted c : persisted (clear c).2 ∧ items (clear c).2 = [].
Proof.
  split; [|done]. unfold persisted. simpl. split; [|done]. apply lookup_insert_eq.
Qed.

Lemma item_getitem_None_here m k c :
  item_at c m k = None → is_Some (_items_dict c !! m) →
  item_getitem m k c = (Raise KeyError, c).
Proof.
  unfold item_at, item_getitem, bind, items_dict_getitem. intros Hnone [inner Hm].
  rewrite Hm in *. simpl in Hnone. by rewrite Hnone.
Qed.

Lemma item_delitem_None_here m k c :
  item_at c m k = None → is_Some (_items_dict c !! m) →
  item_delitem m k c = (Raise KeyError, c).
Proof.
  unfold item_at, item_delitem, bind, items_dict_getitem. intros Hnone [inner Hm].
  rewrite Hm in *. simpl in Hnone. by rewrite Hnone.
Qed.

(** The class of a product of a well-formed cart is a key of the
    dictionary. *)
Lemma wf_model_present c p :
  cart_wf c = true → p ∈ products c → is_Some (_items_dict c !! p_model p).
Proof.
  intros Hwf (m & k & i & Hi & <-)%elem_of_products.
  destruct (cart_wf_entry _ _ _ _ Hwf Hi) as [<- _].
  unfold item_at in Hi. by destruct (_items_dict c !! m).
Qed.

Lemma exec_raise_unchanged op c e :
  cart_wf c = true → (exec op c).1 = Raise e → (exec op c).2 = c.
Proof.
  intros Hwf. destruct op as [p price_ q|p|p| |p q]; simpl.
  - destruct (decide (q < 1)) as [Hq|Hq]; [by rewrite add_quantity_below_1|].
    destruct (decide (p ∈ products c)) as [Hp|Hp].
    + destruct (item_at c (p_model p) (KInt (pk p))) as [item|] eqn:Hitem.
      * by destruct (add_existing_product p price_ q c item) as (c' & -> & _);
          [lia|done|done|].
      * intros _. unfold add, bind, get. rewrite bool_decide_eq_false_2 by lia.
        rewrite (contains_true _ _ Hp). unfold get_product_model_path.
        by rewrite item_getitem_None_here by eauto using wf_model_present.
    + destruct price_ as [v|]; [|by rewrite add_missing_price by (lia || done)].
      destruct (Decimal_of_str (py_str v)) as [d|] eqn:Hd;
        [|by rewrite add_malformed_price by (lia || done)].
      destruct (has_model c (p_model p)) eqn:Hmodel;
        [|by rewrite (add_new_product_plain_dict p v d) by (lia || done)].
      by destruct (add_new_product p v d q c) as (c' & -> & _); [lia|done..|].
  - destruct (decide (p ∈ products c)) as [Hp|Hp]; [|by rewrite remove_absent].
    destruct (item_at c (p_model p) (KInt (pk p))) as [item|] eqn:Hitem.
    + by destruct (remove_present p c item) as (c' & -> & _).
    + intros _. unfold remove, bind, get. rewrite (contains_true _ _ Hp). simpl.
      unfold bind, get_product_model_path.
      by rewrite item_delitem_None_here by eauto using wf_model_present.
  - destruct (decide (p ∈ products c)) as [Hp|Hp]; [|by rewrite remove_single_absent].
    destruct (item_at c (p_model p) (KInt (pk p))) as [item|] eqn:Hitem.
    + destruct (decide (quantity item ≤ 1)) as [Hq|Hq].
      * by destruct (remove_single_last p c item) as (c' & -> & _).
      * by destruct (remove_single_decrements p c item) as (c' & -> & _);
          [done|done|lia|].
    + intros _. unfold remove_single, bind, get. rewrite (contains_true _ _ Hp). simpl.
      unfold bind, get_product_model_path.
      by rewrite item_getitem_None_here by eauto using wf_model_present.
  - done.
  - destruct (decide (q < 0)) as [Hq|Hq]; [by rewrite set_quantity_negative|].
    destruct (decide (p ∈ products c)) as [Hp|Hp];
      [|by rewrite set_quantity_absent by (lia || done)].
    destruct (item_at c (p_model p) (KInt (pk p))) as [item|] eqn:Hitem.
    + by destruct (set_quantity_present p q c item) as (c' & -> & _); [lia|done..|].
    + intros _. unfold set_quantity. rewrite bool_decide_eq_false_2 by lia.
      unfold bind, get. rewrite (contains_true _ _ Hp). simpl.
      unfold bind, get_product_model_path.
      by rewrite item_getitem_None_here by eauto using wf_model_present.
Qed.

Lemma exec_return_persisted op c :
  cart_wf c = true → (exec op c).1 = Ok tt →
  (exec op c).2 = c ∨ persisted (exec op c).2.
Proof.
  intros Hwf. destruct op as [p price_ q|p|p| |p q]; simpl.
  - destruct (decide (q < 1)) as [Hq|Hq]; [by rewrite add_quantity_below_1|].
    destruct (decide (p ∈ products c)) as [Hp|Hp].
    + destruct (item_at c (p_model p) (KInt (pk p))) as [item|] eqn:Hitem.
      * destruct (add_existing_product p price_ q c item) as (c' & -> & _ & _ & _ & ?);
          [lia|done|done|]. by right.
      * by destruct (add_existing_product_str_key p price_ q c) as (c' & -> & _);
          [lia|done|done|].
    + destruct price_ as [v|]; [|by rewrite add_missing_price by (lia || done)].
      destruct (Decimal_of_str (py_str v)) as [d|] eqn:Hd;
        [|by rewrite add_malformed_price by (lia || done)].
      destruct (has_model c (p_model p)) eqn:Hmodel;
        [|by rewrite (add_new_product_plain_dict p v d) by (lia || done)].
      destruct (add_new_product p v d q c) as (c' & -> & _ & _ & _ & ?); [lia|done..|].
      by right.
  - destruct (decide (p ∈ products c)) as [Hp|Hp]; [|left; by rewrite remove_absent].
    destruct (item_at c (p_model p) (KInt (pk p))) as [item|] eqn:Hitem.
    + destruct (remove_present p c item) as (c' & -> & _ & _ & _ & ?); [done..|].
      by right.
    + by destruct (remove_present_str_key p c) as (c' & -> & _).
  - destruct (decide (p ∈ products c)) as [Hp|Hp];
      [|left; by rewrite remove_single_absent].
    destruct (item_at c (p_model p) (KInt (pk p))) as [item|] eqn:Hitem.
    + destruct (decide (quantity item ≤ 1)) as [Hq|Hq].
      * destruct (remove_single_last p c item) as (c' & -> & _ & _ & _ & ?); [done..|].
        by right.
      * destruct (remove_single_decrements p c item) as (c' & -> & _ & _ & _ & ?);
          [done|done|lia|]. by right.
    + by destruct (remove_single_str_key p c) as (c' & -> & _).
  - intros _. right. by destruct (clear_spec_persisted c).
  - destruct (decide (q < 0)) as [Hq|Hq]; [by rewrite set_quantity_negative|].
    destruct (decide (p ∈ products c)) as [Hp|Hp];
      [|left; by rewrite set_quantity_absent by (lia || done)].
    destruct (item_at c (p_model p) (KInt (pk p))) as [item|] eqn:Hitem.
    + destruct (set_quantity_present p q c item) as (c' & -> & _ & _ & _ & ?);
        [lia|done..|]. by right.
    + by destruct (set_quantity_str_key p q c) as (c' & -> & _); [lia|done..|].
Qed.

(** X7: on a well-formed cart, a call that raises leaves the cart object
    exactly as it was, session included; a call that returns leaves it as
    it was or persists it.  So a cart that agrees with its session entry
    agrees with it after every call, and stays well formed. *)
Theorem exec_atomic op c :
  cart_wf c = true →
  (∀ e, (exec op c).1 = Raise e → (exec op c).2 = c)
  ∧ ((exec op c).1 = Ok tt → (exec op c).2 = c ∨ persisted (exec op c).2)
  ∧ (persisted c → persisted (exec op c).2)
  ∧ cart_wf (exec op c).2 = true.
Proof.
  intros Hwf. split; [|split; [|split]].
  - intros e. by apply exec_raise_unchanged.
  - by apply exec_return_persisted.
  - intros Hpers. destruct (exec op c).1 as [[]|e] eqn:Hres.
    + by destruct (exec_return_persisted op c Hwf Hres) as [->|?].
    + by rewrite (exec_raise_unchanged op c e Hwf Hres).
  - by apply cart_wf_filed, exec_filed, cart_wf_filed.
Qed.

(** ** The serialized form *)

(** X8: the record of an item reads back as the item: it carries the
    primary key of the product, its price string is read by [Decimal] as
    the price, and [CartItem] built from the product, the stored quantity
    and that price is the item. *)
Theorem to_dict_reads_back i :
  dict_product_pk (to_dict i) = pk (product i)
  ∧ Decimal_of_str (dict_price (to_dict i)) = Some (price i)
  ∧ CartItem_init (product i) (dict_quantity (to_dict i)) (PyDecimal (price i)) = Ok i.
Proof.
  split; [done|]. split; [apply Decimal_of_str_of_Decimal|].
  unfold CartItem_init. simpl. rewrite Decimal_of_str_of_Decimal. by destruct i.
Qed.

Lemma serialized_model_2 (l : list CartItem) i :
  i ∈ l → is_Some (foldl serialize_item ∅ l !! p_model (product i)).
Proof.
  induction l as [|x l IH] using rev_ind; [by intros ?%not_elem_of_nil|].
  rewrite foldl_snoc. unfold serialize_item at 1, get_product_model_path.
  intros [Hi| ->%list_elem_of_singleton]%elem_of_app.
  - destruct (decide (p_model (product i) = p_model (product x))) as [->|Hne].
    + rewrite lookup_insert_eq. eauto.
    + rewrite lookup_insert_ne by done. by apply IH.
  - rewrite lookup_insert_eq. eauto.
Qed.

Lemma serialized_non_empty (l : list CartItem) m inner :
  foldl serialize_item ∅ l !! m = Some inner → inner ≠ ∅.
Proof.
  induction l as [|x l IH] using rev_ind; [by simpl; rewrite lookup_empty|].
  rewrite foldl_snoc. unfold serialize_item at 1, get_product_model_path.
  destruct (decide (m = p_model (product x))) as [->|Hne].
  - rewrite lookup_insert_eq. intros [= <-]. apply insert_non_empty.
  - rewrite lookup_insert_ne by done. apply IH.
Qed.

(** X9: in the representation of a cart in which no product has two
    items, the entry under a class path and a key is the record of the item
    of that class whose primary key has that string, and there is no other
    entry. *)
Theorem cart_serializable_entries c m s dct :
  NoDup (products c) →
  cart_serializable c !! m ≫= (.!! s) = Some dct
  ↔ ∃ i, i ∈ items c ∧ p_model (product i) = m ∧ str (pk (product i)) = s
         ∧ dct = to_dict i.
Proof.
  intros Hnodup. split; [apply serialized_lookup_1|].
  intros (i & Hi & <- & <- & ->). apply serialized_lookup_2; [|done].
  intros ? ?. by apply NoDup_products_one_item.
Qed.

(** X10: [items_serializable] lists each class path of the cart once,
    lists no other path, and lists no class with an empty dictionary. *)
Theorem items_serializable_models c :
  NoDup (items_serializable c).*1
  ∧ (∀ m, m ∈ (items_serializable c).*1 ↔ ∃ p, p ∈ products c ∧ p_model p = m)
  ∧ (∀ m inner, (m, inner) ∈ items_serializable c → inner ≠ ∅).
Proof.
  unfold items_serializable, cart_serializable. split; [apply NoDup_fst_map_to_list|]. split.
  - intros m. rewrite list_elem_of_fmap. split.
    + intros ([m' inner] & -> & Hin%elem_of_map_to_list).
      destruct (serialized_model _ _ _ Hin) as (i & Hi & Hm).
      exists (product i). split; [by apply list_elem_of_fmap_2|done].
    + intros (p & (i & -> & Hi)%list_elem_of_fmap & <-).
      destruct (serialized_model_2 _ _ Hi) as [inner Hinner].
      exists (p_model (product i), inner). by rewrite elem_of_map_to_list.
  - intros m inner Hin%elem_of_map_to_list. by eapply serialized_non_empty.
Qed.

(** ** Counting *)

Lemma quantities_ge_length (l : list CartItem) :
  (∀ i, i ∈ l → 1 ≤ quantity i) → Z.of_nat (length l) ≤ quantities l.
Proof.
  unfold quantities. induction l as [|i l IH]; intros Hl; simpl; [lia|].
  assert (1 ≤ quantity i) by (apply Hl; left).
  assert (Z.of_nat (length l) ≤ foldr (λ i n, quantity i + n) 0 l)
    by (apply IH; intros j Hj; apply Hl; by right).
  lia.
Qed.

(** X11: in a cart built from an empty cart, [count] is at least
    [unique_count]; the cart is empty exactly if [count] is 0; and a
    product is in the cart exactly if the cart holds at least one of
    it. *)
Theorem reachable_counts c :
  reachable c →
  Z.of_nat (unique_count c) ≤ count c
  ∧ (is_empty c = true ↔ count c = 0)
  ∧ (∀ p, contains c p = true ↔ 1 ≤ quantity_in c p).
Proof.
  intros Hinv%reachable_int_keyed.
  assert (∀ i, i ∈ items c → 1 ≤ quantity i) as Hpos.
  { intros i (m & k & Hi)%elem_of_items. by destruct (Hinv _ _ _ Hi) as (_ & _ & ?). }
  pose proof (quantities_ge_length _ Hpos) as Hle.
  rewrite count_quantities. unfold is_empty, unique_count. fold (items c).
  split; [done|]. split.
  - rewrite bool_decide_eq_true. split.
    + intros Hlen. destruct (items c); [done|discriminate].
    + lia.
  - intros p. unfold contains. rewrite bool_decide_eq_true.
    pose proof (int_keyed_cart_wf _ Hinv) as Hwf. split.
    + intros Hp. destruct (int_keyed_present _ _ Hinv Hp) as (item & Hitem & _ & Hq).
      rewrite (quantity_in_slot c p Hwf), Hitem by (rewrite Hitem; eauto). done.
    + intros Hq. destruct (decide (p ∈ products c)) as [|Hp]; [done|].
      rewrite (quantity_in_absent c p Hp) in Hq. lia.
Qed.



(** ** All the carts a caller obtains *)

(** X13: in every cart a caller obtains, from [Cart(session)] on any
    session and any calls after it, no product has two items. *)
Theorem constructed_distinct env c :
  tables_typed env → constructed env c →
  NoDup (products c) ∧ unique_count c = length (remove_dups (products c)).
Proof.
  intros Htyped Hc.
  pose proof (cart_wf_NoDup_products c (constructed_cart_wf env c Htyped Hc)) as Hnodup.
  split; [done|]. rewrite (remove_dups_NoDup _ Hnodup).
  unfold unique_count, products. by rewrite length_fmap.
Qed.

(** X14: what a request wrote, the next request reads: [Cart(session)]
    on the session of a persisted well-formed cart, all of whose products
    are rows of the table of their class and pass the configured lookup,
    returns a cart with the same items up to their order, hence the same
    [count], [unique_count] and quantity of every product. *)
Theorem reload_persisted env c :
  cart_wf c = true → persisted c → session_key c ≠ "" →
  tables_typed env → forallb (available env) (products c) = true →
  ∃ c', Cart_init env (session c) (Some (session_key c)) = Ok c'
        ∧ items c' ≡ₚ items c
        ∧ count c' = count c
        ∧ unique_count c' = unique_count c
        ∧ ∀ p, quantity_in c' p = quantity_in c p.
Proof.
  intros Hwf [Hpers _] Hkey Htyped Havail.
  rewrite forallb_forall in Havail.
  pose proof (cart_wf_NoDup_products c Hwf) as Hnodup.
  set (self0 := {| _items_dict := ∅; is_defaultdict := true; session := session c;
                   session_key := session_key c |}).
  destruct (rebuild_cart env c self0) as (c' & Hrun & _ & Hitems).
  - intros i j. by apply NoDup_products_one_item.
  - done.
  - intros p Hp%list_elem_of_In%Havail.
    apply available_spec in Hp as (Model & -> & _). eauto.
  - done.
  - done.
  - assert (items c' ≡ₚ items c) as Hperm.
    { apply NoDup_Permutation.
      - apply (NoDup_fmap_1 product), cart_wf_NoDup_products, cart_wf_intro.
        intros m k i Hi. pose proof Hi as (-> & -> & _)%Hitems.
        split; [done|]. right. split; [done|].
        destruct (item_at c' _ (KInt _)) as [j|] eqn:Hj; [|done].
        by apply Hitems in Hj as ([=] & _).
      - by apply (NoDup_fmap_1 product).
      - intros i. rewrite (elem_of_items c'). split.
        + by intros (m & k & (_ & _ & ? & _)%Hitems).
        + intros Hi. eexists _, _. apply Hitems. repeat split; [done|].
          apply Havail, list_elem_of_In. by apply list_elem_of_fmap_2. }
    exists c'. unfold Cart_init, session_key_or_default.
    rewrite bool_decide_eq_false_2 by done. rewrite Hpers. fold self0. rewrite Hrun.
    split; [done|]. split; [done|]. split; [|split].
    + rewrite !count_quantities. by apply quantities_Permutation.
    + unfold unique_count. fold (items c) (items c'). by apply Permutation_length.
    + intros p. unfold quantity_in. apply quantities_Permutation. by rewrite Hperm.
Qed.

(** ** What [__init__] reads from any session *)

Lemma rebuild_read_from env rep c :
  tables_typed env →
  (∀ i, i ∈ items c → read_from env rep i) →
  ∀ i, i ∈ items (rebuild env rep c).2 → read_from env rep i.
Proof.
  intros Htyped. unfold rebuild.
  apply (for_preserves _ _ (λ c, ∀ i, i ∈ items c → read_from env rep i)).
  intros [m inner] c1 _ Hc1.
  unfold bind at 1, lift at 1, get_product_model.
  destruct (objects_all env m) as [Model|] eqn:HModel; [|done].
  unfold bind at 1, lift at 1, filter_pk__in.
  destruct (mapM int (map_to_list inner).*1) as [pks|]; [|done].
  apply (for_preserves _ _ (λ c, ∀ i, i ∈ items c → read_from env rep i)); [|done].
  intros p c2 Hp Hc2.
  apply list_elem_of_In, filter_In in Hp as [Hp%list_elem_of_In _].
  assert (p_model p = m) as Hpm.
  { eapply Htyped; [done|]. unfold filter_products in Hp.
    destruct (CART_PRODUCT_LOOKUP env); [|done].
    by apply list_elem_of_In, filter_In in Hp as [?%list_elem_of_In _]. }
  destruct (rep !! m ≫= (.!! str (pk p))) as [dct|] eqn:Hdct; [|done].
  destruct (Decimal_of_str (dict_price dct)) as [d|] eqn:Hd; [|done].
  unfold bind, lift, CartItem_init. simpl. rewrite Decimal_of_str_of_Decimal.
  pose proof (item_setitem_spec m (KStr (str (pk p)))
    {| product := p; quantity := dict_quantity dct; price := d |} c2) as Hset.
  destruct (has_model c2 m); [|by rewrite Hset].
  destruct Hset as (c' & -> & Hbut & _). simpl.
  intros i (m' & k' & Hi)%elem_of_items. rewrite Hbut in Hi.
  case_decide as Hmk; [|apply Hc2, elem_of_items; eauto].
  injection Hi as <-. split; simpl.
  - apply available_spec. exists Model. by rewrite Hpm.
  - exists dct. by rewrite Hpm.
Qed.

(** X15: whatever the session holds, every item of the cart that
    [Cart(session)] returns was read from the stored representation: its
    product is in the table of its class and passes the configured lookup,
    and its quantity and price are those of the stored record. *)
Theorem Cart_init_sound env sess sk c rep :
  tables_typed env →
  s_data sess !! session_key_or_default env sk = Some rep →
  Cart_init env sess sk = Ok c →
  ∀ i, i ∈ items c → read_from env rep i.
Proof.
  intros Htyped Hrep. unfold Cart_init. rewrite Hrep.
  set (self0 := {| _items_dict := ∅; is_defaultdict := true; session := sess;
                   session_key := session_key_or_default env sk |}).
  pose proof (rebuild_read_from env rep self0 Htyped) as Hread.
  destruct (rebuild env rep self0) as [[[]|e] c']; [|done]. intros [= <-].
  apply Hread. intros i Hi. by apply not_elem_of_nil in Hi.
Qed.

(** ** The checks of [add] *)

(** X16: [add] checks the quantity first and the price last: a quantity
    below 1 raises the quantity error whatever the cart, the product and
    the price; a missing price raises only for a product that is not in
    the cart; both leave the cart as it was.  For a product filed in the
    cart no price is needed. *)
Theorem add_checks c p price_ q :
  (q < 1 →
   add p price_ q c
   = (Raise (ValueError "Quantity must be at least 1 when adding to cart"), c))
  ∧ (1 ≤ q → contains c p = false →
     add p None q c = (Raise (ValueError "Missing price when adding to cart"), c))
  ∧ (1 ≤ q → contains c p = true →
     is_Some (item_at c (p_model p) (KInt (pk p))) →
     (add p None q c).1 = Ok tt).
Proof.
  split; [apply add_quantity_below_1|]. split.
  - intros Hq Hp%bool_decide_eq_false. by apply add_missing_price.
  - intros Hq Hp%bool_decide_eq_true [item Hitem].
    by destruct (add_existing_product p None q c item Hq Hp Hitem) as (c' & -> & _).
Qed.

End Composition.

(** * The calls that raise [KeyError] *)

(** Closed equations between a run of the code and its value are checked
    by evaluation. *)
Ltac by_evaluation :=
  repeat split;
  match goal with |- ?lhs = ?rhs => vm_cast_no_check (eq_refl rhs) end.

Section Failures.
Import Examples.
Local Existing Instance IntegerDecimal.

Lemma fresh_cart_init : Cart_init env empty_session None = Ok fresh_cart.
Proof. by_evaluation. Qed.

Lemma reloaded_cart_init : Cart_init env (session cart_1) None = Ok reloaded_cart.
Proof.
  assert (is_Ok (Cart_init env (session cart_1) None) = true) as Hok
    by by_evaluation.
  unfold reloaded_cart.
  destruct (Cart_init env (session cart_1) None); [reflexivity|discriminate].
Qed.

(** The reloaded cart files its item under the string ['1']. *)
Lemma reloaded_cart_keys :
  items_keyed reloaded_cart
  = [("carton.tests.models.Product", KStr "1",
      {| product := Product1; quantity := 2; price := 10 |})]
  ∧ is_defaultdict reloaded_cart = true.
Proof. by_evaluation. Qed.

(** C2 (the code departs from it): on the fresh cart, [add] of a product
    with the quantities 2 and 3 leaves one item of quantity 5 with the
    price of the first call; on the cart left by [clear()], which does not
    contain the product either, the first call raises [KeyError], so does
    the second, and the cart stays empty. *)
Theorem add_twice_after_clear :
  outcome (bind (add Product1 (Some (PyInt 10)) 2)
                (λ _, add Product1 (Some (PyInt 99)) 3)) fresh_cart
  = (Ok tt, [{| product := Product1; quantity := 5; price := 10 |}])
  ∧ contains cleared_cart Product1 = false
  ∧ outcome (add Product1 (Some (PyInt 10)) 2) cleared_cart = (Raise KeyError, [])
  ∧ outcome (add Product1 (Some (PyInt 99)) 3)
            (add Product1 (Some (PyInt 10)) 2 cleared_cart).2
    = (Raise KeyError, []).
Proof. by_evaluation. Qed.

(** C3 (the code departs from it): [add] with a quantity of 1 and a price
    raises [KeyError] on the cart left by [clear()], and [add] with a
    quantity of 1 raises [KeyError] on a reloaded cart that contains the
    product; neither is a case of a quantity below 1 or of a missing
    price.  The items are left as they were. *)
Theorem add_raises_KeyError :
  contains cleared_cart Product1 = false
  ∧ outcome (add Product1 (Some (PyInt 10)) 1) cleared_cart = (Raise KeyError, [])
  ∧ is_Ok (Cart_init env (session cart_1) None) = true
  ∧ contains reloaded_cart Product1 = true
  ∧ outcome (add Product1 (Some (PyInt 10)) 1) reloaded_cart
    = (Raise KeyError, [{| product := Product1; quantity := 2; price := 10 |}])
  ∧ outcome (add Product1 None 1) reloaded_cart
    = (Raise KeyError, [{| product := Product1; quantity := 2; price := 10 |}]).
Proof. by_evaluation. Qed.

(** C4 (the code departs from it): on a reloaded cart that contains the
    product with quantity 2, [set_quantity] raises [KeyError] for the
    quantities 3 and 0, which are not negative, and changes nothing; on
    the cart before the reload it sets the quantity to 3 and removes the
    item for 0. *)
Theorem set_quantity_after_reload :
  outcome (set_quantity Product1 3) cart_1
  = (Ok tt, [{| product := Product1; quantity := 3; price := 10 |}])
  ∧ outcome (set_quantity Product1 0) cart_1 = (Ok tt, [])
  ∧ is_Ok (Cart_init env (session cart_1) None) = true
  ∧ contains reloaded_cart Product1 = true
  ∧ outcome (set_quantity Product1 3) reloaded_cart
    = (Raise KeyError, [{| product := Product1; quantity := 2; price := 10 |}])
  ∧ outcome (set_quantity Product1 0) reloaded_cart
    = (Raise KeyError, [{| product := Product1; quantity := 2; price := 10 |}]).
Proof. by_evaluation. Qed.

(** C5 (the code departs from it): on a reloaded cart that contains the
    product with quantity 2, [remove_single] raises [KeyError] and the
    quantity stays 2; on the cart before the reload it leaves quantity 1,
    and a second call removes the item. *)
Theorem remove_single_after_reload :
  outcome (remove_single Product1) cart_1
  = (Ok tt, [{| product := Product1; quantity := 1; price := 10 |}])
  ∧ outcome (remove_single Product1) (remove_single Product1 cart_1).2 = (Ok tt, [])
  ∧ is_Ok (Cart_init env (session cart_1) None) = true
  ∧ contains reloaded_cart Product1 = true
  ∧ outcome (remove_single Product1) reloaded_cart
    = (Raise KeyError, [{| product := Product1; quantity := 2; price := 10 |}]).
Proof. by_evaluation. Qed.

(** C6 (the code departs from it): on a reloaded cart that contains the
    product, [remove] raises [KeyError] and the item stays; on the cart
    before the reload it deletes the item. *)
Theorem remove_after_reload :
  outcome (remove Product1) cart_1 = (Ok tt, [])
  ∧ is_Ok (Cart_init env (session cart_1) None) = true
  ∧ contains reloaded_cart Product1 = true
  ∧ outcome (remove Product1) reloaded_cart
    = (Raise KeyError, [{| product := Product1; quantity := 2; price := 10 |}]).
Proof. by_evaluation. Qed.

End Failures.

(** * The theorems at a cart of three items *)

Section Witnesses.
Import Examples.
Local Existing Instance IntegerDecimal.

Lemma tables_typed_env_lookup : tables_typed env_lookup.
Proof.
  intros path Model p HModel Hp.
  change (objects_all env_lookup path) with
    (if bool_decide (path = "carton.tests.models.Product") then Some [Product1; Product2]
     else if bool_decide (path = "carton.tests.models.Ticket") then Some []
     else None) in HModel.
  destruct (bool_decide_reflect (path = "carton.tests.models.Product")) as [->|_].
  { injection HModel as <-.
    apply elem_of_cons in Hp as [->|Hp]; [done|].
    apply list_elem_of_singleton in Hp. by rewrite Hp. }
  destruct (bool_decide_reflect (path = "carton.tests.models.Ticket")) as [->|_].
  { injection HModel as <-. by apply not_elem_of_nil in Hp. }
  discriminate.
Qed.

Lemma cart_3_persisted :
  s_data (session cart_3) !! session_key_or_default env_lookup None
  = Some (cart_serializable cart_3).
Proof.
  destruct (add_new_product (DM := IntegerDecimal) Product2 (PyInt 3) 3 1
              (exec (Add Ticket1 (Some (PyStr "7")) 1) cart_1).2)
    as (c' & Hadd & _ & _ & Hkey & Hpersisted & _).
  - lia.
  - apply (bool_decide_eq_false_1 _). by_evaluation.
  - by_evaluation.
  - by_evaluation.
  - assert (cart_3 = c') as ->.
    { unfold cart_3. change (exec (Add Product2 (Some (PyInt 3)) 1))
        with (add Product2 (Some (PyInt 3)) 1). by rewrite Hadd. }
    rewrite <-Hpersisted. f_equal. rewrite Hkey. by_evaluation.
Qed.

Lemma filtered_cart_init : Cart_init env_lookup (session cart_3) None = Ok filtered_cart.
Proof.
  assert (is_Ok (Cart_init env_lookup (session cart_3) None) = true) as Hok
    by by_evaluation.
  unfold filtered_cart.
  destruct (Cart_init env_lookup (session cart_3) None); [reflexivity|discriminate].
Qed.

(** Of the three items, the reload under [env_lookup] keeps the one of
    [Product1]: [Product2] does not pass the lookup, and [Ticket1] is no
    longer in its table. *)
Lemma filtered_cart_items :
  items filtered_cart = [ {| product := Product1; quantity := 2; price := 10 |} ]
  ∧ (in_store env_lookup Product1, passes_lookup env_lookup Product1) = (true, true)
  ∧ (in_store env_lookup Product2, passes_lookup env_lookup Product2) = (true, false)
  ∧ (in_store env_lookup Ticket1, passes_lookup env_lookup Ticket1) = (false, true).
Proof. by_evaluation. Qed.

Lemma session_roundtrip_witness :
  ∃ c', Cart_init env_lookup (session cart_3) None = Ok c'
        ∧ (∀ i, i ∈ items c'
                ↔ i ∈ items cart_3
                  ∧ in_store env_lookup (product i) = true
                  ∧ passes_lookup env_lookup (product i) = true)
        ∧ (∀ p, p ∈ products cart_3 → in_store env_lookup p = false → p ∉ products c')
        ∧ NoDup (products c')
        ∧ session c' = session cart_3.
Proof.
  apply (session_roundtrip env_lookup cart_3 (session cart_3) None).
  - apply (bool_decide_eq_true_1 _). by_evaluation.
  - exact tables_typed_env_lookup.
  - by_evaluation.
  - exact cart_3_persisted.
Defined.

(** The items of the cart of three items in the order of Python's
    dictionaries: class by class, and the products of a class in the
    order in which [add] filed them. *)
Definition cart_3_items : list CartItem :=
  [ {| product := Product1; quantity := 2; price := 10 |};
    {| product := Product2; quantity := 1; price := 3 |};
    {| product := Ticket1; quantity := 1; price := 7 |} ].



(** At 28 digits the sums are rounded, and the total depends on the order
    in which the dictionaries list the items. *)
Lemma total_over_order :
  total_over [ {| product := Product1; quantity := 1; price := 10 ^ 28 |};
               {| product := Product2; quantity := 1; price := 4 |};
               {| product := Ticket1; quantity := 1; price := 4 |} ]
  = Ok (NDecimal (10 ^ 28))
  ∧ total_over [ {| product := Product2; quantity := 1; price := 4 |};
                 {| product := Ticket1; quantity := 1; price := 4 |};
                 {| product := Product1; quantity := 1; price := 10 ^ 28 |} ]
    = Ok (NDecimal (10 ^ 28 + 10)).
Proof. by_evaluation. Qed.

(** The views of the cart of three items, evaluated. *)
Lemma views_cart_3 :
  sum_of_products (Decimal_of_int 0) cart_3_items = Some 30
  ∧ total_over cart_3_items = Ok (NDecimal 30)
  ∧ total cart_3 = Ok (NDecimal 30) ∧ count cart_3 = 4 ∧ unique_count cart_3 = 3%nat
  ∧ distinct_products cart_3 = 3%nat
  ∧ is_empty cart_3 = false.
Proof. by_evaluation. Qed.

Lemma reachable_invariant_witness :
  reachable cart_3
  ∧ (∀ i, i ∈ items cart_3 → 1 ≤ quantity i) ∧ NoDup (products cart_3).
Proof.
  assert (reachable cart_3) as Hreach.
  { unfold cart_3, cart_1. do 3 apply reachable_call.
    apply reachable_empty. by_evaluation. }
  split; [exact Hreach|]. exact (reachable_invariant cart_3 Hreach).
Defined.

Lemma absent_product_noop_witness :
  (Product2 ∉ products cart_1)
  ∧ remove_single Product2 cart_1 = (Ok tt, cart_1)
  ∧ (0 ≤ 0 → set_quantity Product2 0 cart_1 = (Ok tt, cart_1))
  ∧ (0 < 0 → ∀ p',
       set_quantity p' 0 cart_1
       = (Raise (ValueError "Quantity must be positive when updating cart"), cart_1)).
Proof.
  assert (Product2 ∉ products cart_1) as Habsent.
  { apply (bool_decide_eq_false_1 _). by_evaluation. }
  split; [exact Habsent|]. exact (absent_product_noop cart_1 Product2 0 Habsent).
Defined.

End Witnesses.

(** * The further properties at the example carts *)

Section MoreWitnesses.
Import Examples.
Local Existing Instance IntegerDecimal.

Lemma tables_typed_env : tables_typed env.
Proof.
  intros path Model p HModel Hp.
  change (objects_all env path) with
    (if bool_decide (path = "carton.tests.models.Product") then Some [Product1; Product2]
     else if bool_decide (path = "carton.tests.models.Ticket") then Some [Ticket1]
     else None) in HModel.
  destruct (bool_decide_reflect (path = "carton.tests.models.Product")) as [->|_].
  { injection HModel as <-.
    apply elem_of_cons in Hp as [->|Hp]; [done|].
    apply list_elem_of_singleton in Hp. by rewrite Hp. }
  destruct (bool_decide_reflect (path = "carton.tests.models.Ticket")) as [->|_].
  { injection HModel as <-. apply list_elem_of_singleton in Hp. by rewrite Hp. }
  discriminate.
Qed.

Lemma cart_1_persisted : persisted cart_1.
Proof.
  destruct (add_new_product (DM := IntegerDecimal) Product1 (PyInt 10) 10 2 fresh_cart)
    as (c' & Hadd & _ & _ & _ & Hpersisted).
  - lia.
  - apply (bool_decide_eq_false_1 _). by_evaluation.
  - by_evaluation.
  - by_evaluation.
  - assert (cart_1 = c') as ->; [|done].
    unfold cart_1. change (exec (Add Product1 (Some (PyInt 10)) 2))
      with (add Product1 (Some (PyInt 10)) 2). by rewrite Hadd.
Qed.

Lemma add_returns_witness :
  cart_wf cart_1 = true
  ∧ (add Product2 (Some (PyInt 3)) 1 cart_1).1 = Ok tt
  ∧ quantity_in (add Product2 (Some (PyInt 3)) 1 cart_1).2 Product2
    = quantity_in cart_1 Product2 + 1
  ∧ count (add Product2 (Some (PyInt 3)) 1 cart_1).2 = count cart_1 + 1
  ∧ unique_count (add Product2 (Some (PyInt 3)) 1 cart_1).2
    = (if contains cart_1 Product2 then unique_count cart_1
       else S (unique_count cart_1))
  ∧ (∀ i, product i ≠ Product2 →
          i ∈ items (add Product2 (Some (PyInt 3)) 1 cart_1).2 ↔ i ∈ items cart_1)
  ∧ contains (add Product2 (Some (PyInt 3)) 1 cart_1).2 Product2 = true
  ∧ persisted (add Product2 (Some (PyInt 3)) 1 cart_1).2.
Proof.
  assert (cart_wf cart_1 = true) as Hwf by by_evaluation.
  assert ((add Product2 (Some (PyInt 3)) 1 cart_1).1 = Ok tt) as Hret by by_evaluation.
  split; [exact Hwf|]. split; [exact Hret|].
  exact (add_returns cart_1 Product2 (Some (PyInt 3)) 1 Hwf Hret).
Defined.

Lemma remove_returns_witness :
  cart_wf cart_3 = true
  ∧ (remove Product1 cart_3).1 = Ok tt
  ∧ quantity_in (remove Product1 cart_3).2 Product1 = 0
  ∧ contains (remove Product1 cart_3).2 Product1 = false
  ∧ count (remove Product1 cart_3).2 = count cart_3 - quantity_in cart_3 Product1
  ∧ unique_count cart_3
    = (if contains cart_3 Product1 then S (unique_count (remove Product1 cart_3).2)
       else unique_count (remove Product1 cart_3).2)
  ∧ (∀ i, product i ≠ Product1 →
          i ∈ items (remove Product1 cart_3).2 ↔ i ∈ items cart_3)
  ∧ (contains cart_3 Product1 = true → persisted (remove Product1 cart_3).2).
Proof.
  assert (cart_wf cart_3 = true) as Hwf by by_evaluation.
  assert ((remove Product1 cart_3).1 = Ok tt) as Hret by by_evaluation.
  split; [exact Hwf|]. split; [exact Hret|].
  exact (remove_returns cart_3 Product1 Hwf Hret).
Defined.

Lemma remove_single_returns_witness :
  cart_wf cart_3 = true
  ∧ (remove_single Product1 cart_3).1 = Ok tt
  ∧ quantity_in (remove_single Product1 cart_3).2 Product1
    = (if bool_decide (quantity_in cart_3 Product1 ≤ 1) then 0
       else quantity_in cart_3 Product1 - 1)
  ∧ contains (remove_single Product1 cart_3).2 Product1
    = contains cart_3 Product1 && bool_decide (1 < quantity_in cart_3 Product1)
  ∧ count (remove_single Product1 cart_3).2
    = count cart_3 - quantity_in cart_3 Product1
      + quantity_in (remove_single Product1 cart_3).2 Product1
  ∧ (∀ i, product i ≠ Product1 →
          i ∈ items (remove_single Product1 cart_3).2 ↔ i ∈ items cart_3)
  ∧ (contains cart_3 Product1 = true → persisted (remove_single Product1 cart_3).2).
Proof.
  assert (cart_wf cart_3 = true) as Hwf by by_evaluation.
  assert ((remove_single Product1 cart_3).1 = Ok tt) as Hret by by_evaluation.
  split; [exact Hwf|]. split; [exact Hret|].
  exact (remove_single_returns cart_3 Product1 Hwf Hret).
Defined.

Lemma set_quantity_returns_witness :
  cart_wf cart_3 = true
  ∧ contains cart_3 Product1 = true
  ∧ (set_quantity Product1 5 cart_3).1 = Ok tt
  ∧ 0 ≤ 5
  ∧ quantity_in (set_quantity Product1 5 cart_3).2 Product1 = 5
  ∧ contains (set_quantity Product1 5 cart_3).2 Product1 = bool_decide (1 ≤ 5)
  ∧ count (set_quantity Product1 5 cart_3).2
    = count cart_3 - quantity_in cart_3 Product1 + 5
  ∧ (∀ i, product i ≠ Product1 →
          i ∈ items (set_quantity Product1 5 cart_3).2 ↔ i ∈ items cart_3)
  ∧ persisted (set_quantity Product1 5 cart_3).2.
Proof.
  assert (cart_wf cart_3 = true) as Hwf by by_evaluation.
  assert (contains cart_3 Product1 = true) as Hin by by_evaluation.
  assert ((set_quantity Product1 5 cart_3).1 = Ok tt) as Hret by by_evaluation.
  split; [exact Hwf|]. split; [exact Hin|]. split; [exact Hret|].
  exact (set_quantity_returns cart_3 Product1 5 Hwf Hin Hret).
Defined.

Lemma Cart_init_returns_witness :
  tables_typed env
  ∧ Cart_init env (session cart_1) None = Ok reloaded_cart
  ∧ session reloaded_cart = session cart_1
  ∧ session_key reloaded_cart = CART_SESSION_KEY env
  ∧ is_defaultdict reloaded_cart = true
  ∧ (s_data (session cart_1) !! session_key reloaded_cart = None
     → items reloaded_cart = [])
  ∧ ∀ m k i, item_at reloaded_cart m k = Some i →
             m = p_model (product i) ∧ k = KStr (str (pk (product i))).
Proof.
  split; [exact tables_typed_env|]. split; [exact reloaded_cart_init|].
  exact (Cart_init_returns env (session cart_1) None reloaded_cart
           tables_typed_env reloaded_cart_init).
Defined.

Lemma stale_session_entry :
  s_data stale_session !! session_key_or_default env None
  = Some {[ "shop.models.Gone" := ∅ ]}.
Proof. apply lookup_singleton_eq. Qed.

Lemma malformed_session_entry :
  s_data malformed_session !! session_key_or_default env None
  = Some {[ "carton.tests.models.Product" := malformed_entry ]}.
Proof. apply lookup_singleton_eq. Qed.

Lemma Cart_init_raises_witness :
  (s_data stale_session !! session_key_or_default env None
   = Some {[ "shop.models.Gone" := ∅ ]}
   ∧ ({[ "shop.models.Gone" := ∅ ]} : CartRep) !! "shop.models.Gone" = Some ∅
   ∧ (objects_all env "shop.models.Gone" = None
      ∨ ∃ s, is_Some ((∅ : gmap string ItemDict) !! s) ∧ int s = None)
   ∧ is_Ok (Cart_init env stale_session None) = false)
  ∧ (s_data malformed_session !! session_key_or_default env None
     = Some {[ "carton.tests.models.Product" := malformed_entry ]}
     ∧ ({[ "carton.tests.models.Product" := malformed_entry ]} : CartRep)
         !! "carton.tests.models.Product" = Some malformed_entry
     ∧ (objects_all env "carton.tests.models.Product" = None
        ∨ ∃ s, is_Some (malformed_entry !! s) ∧ int s = None)
     ∧ is_Ok (Cart_init env malformed_session None) = false).
Proof.
  assert (({[ "shop.models.Gone" := ∅ ]} : CartRep) !! "shop.models.Gone" = Some ∅)
    as Hinner by apply lookup_singleton_eq.
  assert (objects_all env "shop.models.Gone" = None
          ∨ ∃ s, is_Some ((∅ : gmap string ItemDict) !! s) ∧ int s = None) as Hbad
    by (left; by_evaluation).
  assert (({[ "carton.tests.models.Product" := malformed_entry ]} : CartRep)
            !! "carton.tests.models.Product" = Some malformed_entry)
    as Hinner' by apply lookup_singleton_eq.
  assert (objects_all env "carton.tests.models.Product" = None
          ∨ ∃ s, is_Some (malformed_entry !! s) ∧ int s = None) as Hbad'.
  { right. exists "1.5". split; [|by_evaluation].
    unfold malformed_entry. rewrite lookup_singleton_eq. by eexists. }
  split.
  - split; [exact stale_session_entry|]. split; [exact Hinner|]. split; [exact Hbad|].
    exact (Cart_init_raises env stale_session None _ _ _ stale_session_entry Hinner Hbad).
  - split; [exact malformed_session_entry|]. split; [exact Hinner'|].
    split; [exact Hbad'|].
    exact (Cart_init_raises env malformed_session None _ _ _
             malformed_session_entry Hinner' Hbad').
Defined.

Lemma exec_atomic_witness :
  cart_wf reloaded_cart = true
  ∧ (∀ e, (exec (Remove Product1) reloaded_cart).1 = Raise e
          → (exec (Remove Product1) reloaded_cart).2 = reloaded_cart)
  ∧ ((exec (Remove Product1) reloaded_cart).1 = Ok tt
     → (exec (Remove Product1) reloaded_cart).2 = reloaded_cart
       ∨ persisted (exec (Remove Product1) reloaded_cart).2)
  ∧ (persisted reloaded_cart → persisted (exec (Remove Product1) reloaded_cart).2)
  ∧ cart_wf (exec (Remove Product1) reloaded_cart).2 = true.
Proof.
  assert (cart_wf reloaded_cart = true) as Hwf by by_evaluation.
  split; [exact Hwf|]. exact (exec_atomic (Remove Product1) reloaded_cart Hwf).
Defined.

Lemma cart_serializable_entries_witness :
  NoDup (products cart_3)
  ∧ (cart_serializable cart_3 !! "carton.tests.models.Product" ≫= (.!! "2")
     = Some {| dict_product_pk := 2; dict_quantity := 1; dict_price := "3" |}
     ↔ ∃ i, i ∈ items cart_3
            ∧ p_model (product i) = "carton.tests.models.Product"
            ∧ str (pk (product i)) = "2"
            ∧ {| dict_product_pk := 2; dict_quantity := 1; dict_price := "3" |}
              = to_dict i).
Proof.
  assert (NoDup (products cart_3)) as Hnodup
    by (apply (bool_decide_eq_true_1 _); by_evaluation).
  split; [exact Hnodup|].
  exact (cart_serializable_entries cart_3 _ _ _ Hnodup).
Defined.

Lemma cart_3_reachable : reachable cart_3.
Proof.
  unfold cart_3, cart_1. do 3 apply reachable_call.
  apply reachable_empty. by_evaluation.
Qed.

Lemma reachable_counts_witness :
  reachable cart_3
  ∧ Z.of_nat (unique_count cart_3) ≤ count cart_3
  ∧ (is_empty cart_3 = true ↔ count cart_3 = 0)
  ∧ (∀ p, contains cart_3 p = true ↔ 1 ≤ quantity_in cart_3 p).
Proof.
  split; [exact cart_3_reachable|]. exact (reachable_counts cart_3 cart_3_reachable).
Defined.

Lemma reloaded_cart_constructed : constructed env reloaded_cart.
Proof. eapply constructed_init. exact reloaded_cart_init. Qed.

Lemma constructed_distinct_witness :
  tables_typed env
  ∧ constructed env (exec (Add Product2 (Some (PyInt 3)) 1) reloaded_cart).2
  ∧ NoDup (products (exec (Add Product2 (Some (PyInt 3)) 1) reloaded_cart).2)
  ∧ unique_count (exec (Add Product2 (Some (PyInt 3)) 1) reloaded_cart).2
    = length (remove_dups
                (products (exec (Add Product2 (Some (PyInt 3)) 1) reloaded_cart).2)).
Proof.
  assert (constructed env (exec (Add Product2 (Some (PyInt 3)) 1) reloaded_cart).2)
    as Hc by (apply constructed_call, reloaded_cart_constructed).
  split; [exact tables_typed_env|]. split; [exact Hc|].
  exact (constructed_distinct env _ tables_typed_env Hc).
Defined.


Lemma reload_persisted_witness :
  cart_wf cart_1 = true ∧ persisted cart_1 ∧ session_key cart_1 ≠ ""
  ∧ tables_typed env_lookup
  ∧ forallb (available env_lookup) (products cart_1) = true
  ∧ ∃ c', Cart_init env_lookup (session cart_1) (Some (session_key cart_1)) = Ok c'
          ∧ items c' ≡ₚ items cart_1
          ∧ count c' = count cart_1
          ∧ unique_count c' = unique_count cart_1
          ∧ ∀ p, quantity_in c' p = quantity_in cart_1 p.
Proof.
  assert (cart_wf cart_1 = true) as Hwf by by_evaluation.
  assert (session_key cart_1 ≠ "") as Hkey.
  { assert (session_key cart_1 = "CART") as -> by by_evaluation. discriminate. }
  assert (forallb (available env_lookup) (products cart_1) = true) as Havail
    by by_evaluation.
  split; [exact Hwf|]. split; [exact cart_1_persisted|]. split; [exact Hkey|].
  split; [exact tables_typed_env_lookup|]. split; [exact Havail|].
  exact (reload_persisted env_lookup cart_1 Hwf cart_1_persisted Hkey
           tables_typed_env_lookup Havail).
Defined.

Lemma Cart_init_sound_witness :
  tables_typed env_lookup
  ∧ s_data (session cart_3) !! session_key_or_default env_lookup None
    = Some (cart_serializable cart_3)
  ∧ Cart_init env_lookup (session cart_3) None = Ok filtered_cart
  ∧ ∀ i, i ∈ items filtered_cart → read_from env_lookup (cart_serializable cart_3) i.
Proof.
  split; [exact tables_typed_env_lookup|]. split; [exact cart_3_persisted|].
  split; [exact filtered_cart_init|].
  exact (Cart_init_sound env_lookup (session cart_3) None filtered_cart _
           tables_typed_env_lookup cart_3_persisted filtered_cart_init).
Defined.

Lemma reloaded_product_KeyError_witness :
  tables_typed env
  ∧ Cart_init env (session cart_1) None = Ok reloaded_cart
  ∧ (Product1 ∈ products reloaded_cart)
  ∧ (remove Product1 reloaded_cart).1 = Raise KeyError
  ∧ (remove_single Product1 reloaded_cart).1 = Raise KeyError
  ∧ (0 ≤ 3 → (set_quantity Product1 3 reloaded_cart).1 = Raise KeyError)
  ∧ (1 ≤ 3 → (add Product1 None 3 reloaded_cart).1 = Raise KeyError).
Proof.
  assert (Product1 ∈ products reloaded_cart) as Hin
    by (apply (bool_decide_eq_true_1 _); by_evaluation).
  split; [exact tables_typed_env|]. split; [exact reloaded_cart_init|].
  split; [exact Hin|].
  exact (reloaded_product_KeyError env (session cart_1) None reloaded_cart Product1 3 None
           tables_typed_env reloaded_cart_init Hin).
Defined.

Lemma add_twice_aggregates_witness :
  1 ≤ 2 ∧ 1 ≤ 3 ∧ (Product1 ∉ products fresh_cart)
  ∧ Decimal_of_str (py_str (PyInt 10)) = Some (10 : Z)
  ∧ has_model fresh_cart (p_model Product1) = true
  ∧ ∃ c1 c2, add Product1 (Some (PyInt 10)) 2 fresh_cart = (Ok tt, c1)
             ∧ add Product1 (Some (PyInt 99)) 3 c1 = (Ok tt, c2)
             ∧ items_but fresh_cart (p_model Product1) (KInt (pk Product1))
                 (Some {| product := Product1; quantity := 2 + 3; price := 10 |}) c2
             ∧ persisted c2.
Proof.
  assert (1 ≤ 2) as H2 by lia. assert (1 ≤ 3) as H3 by lia.
  assert (Product1 ∉ products fresh_cart) as Habsent
    by (apply (bool_decide_eq_false_1 _); by_evaluation).
  assert (Decimal_of_str (py_str (PyInt 10)) = Some (10 : Z)) as Hd by by_evaluation.
  assert (has_model fresh_cart (p_model Product1) = true) as Hm by by_evaluation.
  split; [exact H2|]. split; [exact H3|]. split; [exact Habsent|].
  split; [exact Hd|]. split; [exact Hm|].
  exact (add_twice_aggregates fresh_cart Product1 (PyInt 10) 10 (Some (PyInt 99)) 2 3
           H2 H3 Habsent Hd Hm).
Defined.

End MoreWitnesses.
